(** * Gonçalinho: the chat backend (server.js) and its client stream reader

    A shallow embedding of the request handlers of [server.js]
    (upload, list, delete, ask) and of the chart post-processing of
    [streamResponse], with the properties the specification states about
    them.

    Conventions of the embedding.
    - A JavaScript string is a [string]: one [ascii] per code unit, read as
      a code point of Basic Latin / Latin-1 (U+0000..U+00FF), which covers
      the Portuguese text the server handles.  On these code points
      [toLowerCase] keeps the length of a string.
    - Numbers are [Z] (lengths, scores, clock readings in milliseconds);
      JSON numbers are [Q].
    - [fs.writeFileSync] on the database file is taken to succeed, so the
      persisted document is a component of the server state.
    - What the outside world decides (the clock, the fresh UUID, the file
      readers, the model's reply) is an explicit input of each handler. *)

From Stdlib Require Import ZArith QArith_base Ascii String Permutation.
From stdpp Require Import base list strings gmap pretty sorting.

Local Open Scope Z_scope.

(** ** JavaScript strings and arrays *)

Module JS.

Definition LF : string := String "010" "".
Definition DQUOTE : string := String "034" "".
Definition BACKTICK : ascii := "096"%char.

(** [s.length] *)
Definition len (s : string) : Z := Z.of_nat (String.length s).

(** [c.toLowerCase()] on one Latin-1 code unit: A..Z and the accented
    capitals U+00C0..U+00DE (the multiplication sign U+00D7 apart). *)
Definition lower_char (c : ascii) : ascii :=
  let n := N_of_ascii c in
  if ((65 <=? n) && (n <=? 90))%N
     || ((192 <=? n) && (n <=? 222) && negb (n =? 215))%N
  then ascii_of_N (n + 32)
  else c.

(** [s.toLowerCase()] *)
Fixpoint toLowerCase (s : string) : string :=
  match s with
  | EmptyString => EmptyString
  | String c s' => String (lower_char c) (toLowerCase s')
  end.

(** [s.split(sep)] for a one-character separator: never the empty
    array, [''.split(' ')] is [['']]. *)
Fixpoint split (sep : ascii) (s : string) : list string :=
  match s with
  | EmptyString => [EmptyString]
  | String c s' =>
      if Ascii.eqb c sep then EmptyString :: split sep s'
      else match split sep s' with
           | t :: ts => String c t :: ts
           | [] => [String c EmptyString]
           end
  end.

(** [s.startsWith(k)] *)
Fixpoint startsWith (s k : string) : bool :=
  match k, s with
  | EmptyString, _ => true
  | String _ _, EmptyString => false
  | String a k', String b s' => Ascii.eqb a b && startsWith s' k'
  end.

(** [s.includes(k)] *)
Fixpoint includes (s k : string) : bool :=
  startsWith s k
  || match s with
     | EmptyString => false
     | String _ s' => includes s' k
     end.

(** The first [n] code units of [s]. *)
Fixpoint take_units (n : nat) (s : string) : string :=
  match n, s with
  | S n', String c s' => String c (take_units n' s')
  | _, _ => EmptyString
  end.

(** [s.slice(0, n)] for [n >= 0]. *)
Definition slice0 (n : Z) (s : string) : string := take_units (Z.to_nat n) s.

(** [s] is falsy exactly when it is the empty string. *)
Definition truthy_string (s : string) : bool :=
  match s with EmptyString => false | _ => true end.

(** [a || b] on strings. *)
Definition or_else (a b : string) : string :=
  if truthy_string a then a else b.

(** [l.join('')] *)
Definition concat (l : list string) : string :=
  fold_right String.append EmptyString l.

(** [Array.prototype.sort(cmp)]: the sort is stable (ECMAScript 2019), the
    element [x] stays ahead of [y] when [cmp x y <= 0] and [x] came first.
    Modelled by insertion from the right, which is such a sort. *)
Section Sort.
Context {A : Type} (cmp : A -> A -> Z).

Fixpoint sort_insert (x : A) (l : list A) : list A :=
  match l with
  | [] => [x]
  | y :: l' => if cmp x y <=? 0 then x :: l else y :: sort_insert x l'
  end.

Fixpoint Array_sort (l : list A) : list A :=
  match l with
  | [] => []
  | x :: l' => sort_insert x (Array_sort l')
  end.
End Sort.

(** [l.findIndex(p)], [None] for JavaScript's -1. *)
Fixpoint findIndex {A : Type} (p : A -> bool) (l : list A) : option nat :=
  match l with
  | [] => None
  | x :: l' => if p x then Some 0%nat else S <$> findIndex p l'
  end.

(** [l.splice(i, 1)]: the array without its element at index [i]. *)
Fixpoint splice1 {A : Type} (i : nat) (l : list A) : list A :=
  match l, i with
  | [], _ => []
  | _ :: l', O => l'
  | x :: l', S i' => x :: splice1 i' l'
  end.

End JS.

(** ** The document collection *)

(** A file record, as [app.post('/api/upload')] builds it. *)
Record FileRecord := {
  id : string;
  name : string;
  path : string;
  type : string;
  content : string;
  timestamp : Z;
  category : string;
  description : string;
  source : string;
  period : string;
  caseName : string
}.

(** ** The relevance selector of [app.post('/api/ask')] *)

Module Selector.
Import JS.

Definition MAX_CONTEXT_CHARS : Z := 250000.
Definition SNIPPET_CHARS : Z := 30000.

(** [message.toLowerCase().split(' ').filter(w => w.length > 3)] *)
Definition keywords (message : string) : list string :=
  List.filter (fun w => 3 <? len w) (split " " (toLowerCase message)).

(** [`${f.name} ${f.caseName} ${f.category} ${f.description}`.toLowerCase()] *)
Definition fullMeta (f : FileRecord) : string :=
  toLowerCase
    (name f +:+ " " +:+ caseName f +:+ " " +:+ category f +:+ " "
     +:+ description f).

(** The body of [keywords.forEach], starting from [score = 0]. *)
Definition score_of (kws : list string) (f : FileRecord) : Z :=
  fold_left
    (fun score k => if includes (fullMeta f) k then score + 10 else score)
    kws 0.

Record Scored := { file : FileRecord; score : Z }.

Definition score_file (kws : list string) (f : FileRecord) : Scored :=
  {| file := f; score := score_of kws f |}.

(** [db.files.map(...).sort((a, b) => b.score - a.score)] *)
Definition sortedFiles (message : string) (files : list FileRecord)
  : list Scored :=
  Array_sort (fun a b => score b - score a)
    (map (score_file (keywords message)) files).

(** [f.content ? f.content.slice(0, 30000) : ''] *)
Definition contentSnippet (f : FileRecord) : string :=
  if truthy_string (content f) then slice0 SNIPPET_CHARS (content f)
  else EmptyString.

(** The block template of one file. *)
Definition fileBlock (f : FileRecord) : string :=
  LF +:+ "--- ARQUIVO: " +:+ name f +:+ " ---" +:+ LF
  +:+ "METADADOS: Categoria: " +:+ category f
  +:+ ", Indicador: " +:+ caseName f
  +:+ ", Periodo: " +:+ period f
  +:+ ", Fonte: " +:+ source f
  +:+ ", Desc: " +:+ description f +:+ LF
  +:+ "CONTEUDO:" +:+ LF
  +:+ contentSnippet f +:+ " " +:+ LF
  +:+ "--- FIM ARQUIVO ---" +:+ LF.

(** The [for (const item of sortedFiles)] loop with its [break], as a
    function of the remaining items and the two accumulators. *)
Fixpoint packLoop (budget : Z) (items : list Scored)
    (currentChars : Z) (selectedContext : string) : Z * string :=
  match items with
  | [] => (currentChars, selectedContext)
  | item :: rest =>
      let fb := fileBlock (file item) in
      if currentChars + len fb <? budget
      then packLoop budget rest (currentChars + len fb) (selectedContext +:+ fb)
      else (currentChars, selectedContext)
  end.

(** [selectedContext] after the loop. *)
Definition selectedContext (message : string) (files : list FileRecord)
  : string :=
  snd (packLoop MAX_CONTEXT_CHARS (sortedFiles message files) 0 EmptyString).

End Selector.

(** ** JSON values *)

#[local] Set Warnings "-register-all".


Inductive JSON :=
| JNull
| JBool (b : bool)
| JNumber (q : Q)
| JString (s : string)
| JArray (items : list JSON)
| JObject (props : list (string * JSON)).

Module Json.

(** [o[k]] on the own properties of an object; [None] is [undefined]. *)
Fixpoint lookup_prop (k : string) (props : list (string * JSON))
  : option JSON :=
  match props with
  | [] => None
  | (k', v) :: rest => if String.eqb k' k then Some v else lookup_prop k rest
  end.

(** [v.k] for a value [v] that is not [null]. *)
Definition getProp (v : JSON) (k : string) : option JSON :=
  match v with
  | JObject props => lookup_prop k props
  | _ => None
  end.

(** JavaScript truthiness of a parsed value. *)
Definition truthy (v : JSON) : bool :=
  match v with
  | JNull => false
  | JBool b => b
  | JNumber q => negb (Qnum q =? 0)
  | JString s => JS.truthy_string s
  | JArray _ | JObject _ => true
  end.

(** [const { k, ...rest } = o]: the properties of [o] other than [k]. *)
Definition omit (k : string) (props : list (string * JSON))
  : list (string * JSON) :=
  List.filter (fun kv => negb (String.eqb (fst kv) k)) props.

Definition keys (props : list (string * JSON)) : list string :=
  map fst props.

End Json.

(** ** The server: state, collaborators and request handlers *)

Module Server.
Import JS.

(** *** Calls that may throw *)

Inductive Outcome (A : Type) :=
| Returned (a : A)
| Threw (message : string).
Arguments Returned {A} a.
Arguments Threw {A} message.

#[global] Instance Outcome_bind : MBind Outcome := fun A B k o =>
  match o with
  | Returned a => k a
  | Threw m => Threw m
  end.

(** *** Node's [path.extname] (POSIX) *)

Record ExtScan := {
  startDot : Z;
  startPart : Z;
  end_ : Z;
  matchedSlash : bool;
  preDotState : Z
}.

(** The backward loop of [extname]: [units] are the code units at the
    indices [i], [i-1], ..., [0]. *)
Fixpoint extname_loop (units : list ascii) (i : Z) (st : ExtScan) : ExtScan :=
  match units with
  | [] => st
  | code :: rest =>
      if Ascii.eqb code "/" then
        if negb (matchedSlash st) then
          {| startDot := startDot st; startPart := i + 1; end_ := end_ st;
             matchedSlash := matchedSlash st; preDotState := preDotState st |}
        else extname_loop rest (i - 1) st
      else
        let st1 :=
          if end_ st =? -1 then
            {| startDot := startDot st; startPart := startPart st;
               end_ := i + 1; matchedSlash := false;
               preDotState := preDotState st |}
          else st in
        let st2 :=
          if Ascii.eqb code "." then
            if startDot st1 =? -1 then
              {| startDot := i; startPart := startPart st1; end_ := end_ st1;
                 matchedSlash := matchedSlash st1;
                 preDotState := preDotState st1 |}
            else if negb (preDotState st1 =? 1) then
              {| startDot := startDot st1; startPart := startPart st1;
                 end_ := end_ st1; matchedSlash := matchedSlash st1;
                 preDotState := 1 |}
            else st1
          else if negb (startDot st1 =? -1) then
            {| startDot := startDot st1; startPart := startPart st1;
               end_ := end_ st1; matchedSlash := matchedSlash st1;
               preDotState := -1 |}
          else st1 in
        extname_loop rest (i - 1) st2
  end.

(** [s.slice(a, b)] for [0 <= a <= b]. *)
Definition slice (a b : Z) (s : string) : string :=
  String.substring (Z.to_nat a) (Z.to_nat (b - a)) s.

Definition extname (p : string) : string :=
  let st :=
    extname_loop (rev (String.list_ascii_of_string p)) (len p - 1)
      {| startDot := -1; startPart := 0; end_ := -1;
         matchedSlash := true; preDotState := 0 |} in
  if (startDot st =? -1) || (end_ st =? -1) || (preDotState st =? 0)
     || ((preDotState st =? 1) && (startDot st =? end_ st - 1)
         && (startDot st =? startPart st + 1))
  then EmptyString
  else slice (startDot st) (end_ st) p.

(** [s.replace('.', '')]: the first dot removed. *)
Fixpoint remove_first_dot (s : string) : string :=
  match s with
  | EmptyString => EmptyString
  | String c s' => if Ascii.eqb c "." then s' else String c (remove_first_dot s')
  end.

(** *** The text extractor *)

(** A file's bytes and a worksheet are opaque to the server. *)
Definition Buffer : Type := string.
Definition Sheet : Type := string.

Record Workbook := {
  SheetNames : list string;
  Sheets : string -> Sheet
}.

(** The readers [extractText] calls, each of which may throw. *)
Record Readers := {
  readFileSync_utf8 : string -> Outcome string;
  readFileSync : string -> Outcome Buffer;
  XLSX_readFile : string -> Outcome Workbook;
  XLSX_sheet_to_csv : Sheet -> Outcome string;
  mammoth_extractRawText : Buffer -> Outcome string;
  pdfParse : Buffer -> Outcome string
}.

(** The [forEach] over the sheet names, threading [fullText]. *)
Fixpoint sheets_text (rd : Readers) (workbook : Workbook)
    (names : list string) (fullText : string) : Outcome string :=
  match names with
  | [] => Returned fullText
  | sheetName :: rest =>
      csv ← XLSX_sheet_to_csv rd (Sheets workbook sheetName);
      sheets_text rd workbook rest
        (fullText +:+ LF +:+ "--- Planilha: " +:+ sheetName +:+ " ---" +:+ LF
         +:+ csv)
  end.


(** The [try] block of [extractText]; an extension that no branch takes
    leaves the block and reaches [return ""]. *)
Definition extractText_try (rd : Readers) (filePath originalName ext : string)
  : Outcome string :=
  if String.eqb ext ".csv" || String.eqb ext ".txt" || String.eqb ext ".json"
  then readFileSync_utf8 rd filePath
  else if String.eqb ext ".xlsx" || String.eqb ext ".xls" then
    workbook ← XLSX_readFile rd filePath;
    sheets_text rd workbook (SheetNames workbook)
      ("Arquivo Excel: " +:+ originalName +:+ LF)
  else if String.eqb ext ".docx" then
    buffer ← readFileSync rd filePath;
    mammoth_extractRawText rd buffer
  else if String.eqb ext ".pdf" then
    buffer ← readFileSync rd filePath;
    pdfParse rd buffer
  else Returned EmptyString.

(** The [catch] of [extractText]. *)
Definition caught (attempt : Outcome string) : string :=
  match attempt with
  | Returned t => t
  | Threw message => "Erro ao ler arquivo: " +:+ message
  end.

Definition extractText (rd : Readers) (filePath mimeType originalName : string)
  : string :=
  let ext := toLowerCase (extname originalName) in
  caught (extractText_try rd filePath originalName ext).

(** *** Source literals *)

(** The Latin-1 string a source literal denotes: the literals below are
    written as in [server.js], in UTF-8, and a two-byte sequence (lead
    byte 194 or 195) is one code unit.  The warning sign of
    [QUOTA_NOTICE] lies outside Latin-1 and keeps its bytes. *)
Fixpoint lit (s : string) : string :=
  match s with
  | EmptyString => EmptyString
  | String "194" (String b s') => String b (lit s')
  | String "195" (String b s') =>
      String (ascii_of_N (N_of_ascii b + 64)) (lit s')
  | String c s' => String c (lit s')
  end.

Definition quoted (s : string) : string := DQUOTE +:+ s +:+ DQUOTE.

(** *** node-cache, as [new NodeCache({ stdTTL: 3600, checkperiod: 600 })] *)

Module NodeCache.

(** Seconds. *)
Definition stdTTL : Z := 3600.

(** [set(key, value)]: the entry lives until [now + stdTTL * 1000]. *)
Definition set (now : Z) (key value : string)
    (data : gmap string (string * Z)) : gmap string (string * Z) :=
  <[key := (value, now + stdTTL * 1000)]> data.

(** [get(key)]: an entry whose time [t] is not 0 and lies before [now]
    is deleted and reads as [undefined]. *)
Definition get (now : Z) (key : string) (data : gmap string (string * Z))
  : option string * gmap string (string * Z) :=
  match data !! key with
  | Some (value, t) =>
      if negb (t =? 0) && (t <? now) then (None, delete key data)
      else (Some value, data)
  | None => (None, data)
  end.

Definition flushAll (data : gmap string (string * Z))
  : gmap string (string * Z) := ∅.

End NodeCache.

(** *** The model service *)

Record Message := { role : string; text : string }.

Record Content := { content_role : string; parts : list string }.

(** The argument of [ai.models.generateContentStream]. *)
Record UpstreamCall := {
  model : string;
  contents : list Content;
  systemInstruction : string;
  temperature : Q
}.

Record UpstreamError := {
  error_status : option Z;
  error_message : option string
}.

(** What a call yields: the [chunk.text] of each chunk received (the
    empty string when a chunk has none), then either the end of the
    stream or an error; [duration] is the time the call took. *)
Record UpstreamReply := {
  chunks : list string;
  failure : option UpstreamError;
  duration : Z
}.

(** *** State *)

Record World := {
  db_files : list FileRecord;            (* the [files] of DB_FILE *)
  db_writes : nat;                        (* calls of [writeDb] so far *)
  disk : gset string;                     (* paths present on disk *)
  appCache : gmap string (string * Z);    (* [appCache]'s entries *)
  upstream_calls : list UpstreamCall      (* calls of the model so far *)
}.

Definition with_cache (w : World) (c : gmap string (string * Z)) : World :=
  {| db_files := db_files w; db_writes := db_writes w; disk := disk w;
     appCache := c; upstream_calls := upstream_calls w |}.

(** [writeDb(db)] *)
Definition writeDb (files : list FileRecord) (w : World) : World :=
  {| db_files := files; db_writes := S (db_writes w); disk := disk w;
     appCache := appCache w; upstream_calls := upstream_calls w |}.

(** *** Responses *)

Inductive Body :=
| Send (s : string)              (* [res.send(s)] *)
| SendJson (j : JSON)            (* [res.json(j)] *)
| Stream (writes : list string). (* [res.write] calls, then [res.end()] *)

Record Response := {
  status : Z;
  headers : list (string * string);
  body : Body
}.

Definition json (st : Z) (j : JSON) : Response :=
  {| status := st; headers := []; body := SendJson j |}.

(** *** 1. Upload *)

Record Upload := {
  upload_path : string;
  mimetype : string;
  originalname : string
}.

(** The fields of [JSON.parse(req.body.metadata || '{}')]; a field that
    is absent, or any field of metadata that does not parse, is the
    empty string (falsy either way). *)
Record Metadata := {
  meta_category : string;
  meta_description : string;
  meta_source : string;
  meta_period : string;
  meta_caseName : string
}.

Record UploadRequest := {
  req_file : option Upload;
  req_metadata : Metadata
}.

(** What the outside world supplies to one upload. *)
Record UploadEnv := {
  readers : Readers;
  randomUUID : string;
  upload_now : Z
}.

Definition newFile (env : UploadEnv) (f : Upload) (metadata : Metadata)
  : FileRecord :=
  {| id := randomUUID env;
     name := originalname f;
     path := upload_path f;
     type := remove_first_dot (extname (originalname f));
     content := extractText (readers env) (upload_path f) (mimetype f)
                  (originalname f);
     timestamp := upload_now env;
     category := or_else (meta_category metadata) "Geral";
     description := or_else (meta_description metadata) "";
     source := or_else (meta_source metadata) "";
     period := or_else (meta_period metadata) "";
     caseName := or_else (meta_caseName metadata) "" |}.

(** The properties of a record, in the order of the object literal. *)
Definition toObject (f : FileRecord) : list (string * JSON) :=
  [("id", JString (id f)); ("name", JString (name f));
   ("path", JString (path f)); ("type", JString (type f));
   ("content", JString (content f));
   ("timestamp", JNumber (inject_Z (timestamp f)));
   ("category", JString (category f));
   ("description", JString (description f));
   ("source", JString (source f)); ("period", JString (period f));
   ("caseName", JString (caseName f))].

(** [const { content, ...rest } = f] *)
Definition withoutContent (f : FileRecord) : JSON :=
  JObject (Json.omit "content" (toObject f)).

(** multer's disk storage has written the file at [p] before the handler
    runs. *)
Definition stored (p : string) (w : World) : World :=
  {| db_files := db_files w; db_writes := db_writes w;
     disk := {[p]} ∪ disk w; appCache := appCache w;
     upstream_calls := upstream_calls w |}.

(** The handler's [catch], which answers 500, is out of reach here: no
    call of the [try] block throws in this model. *)
Definition upload (env : UploadEnv) (req : UploadRequest) (w : World)
  : World * Response :=
  match req_file req with
  | None =>
      (w, {| status := 400; headers := []; body := Send "No file uploaded." |})
  | Some f =>
      let newFile := newFile env f (req_metadata req) in
      let w0 := stored (upload_path f) w in
      let w1 := writeDb (db_files w0 ++ [newFile]) w0 in
      let w2 := with_cache w1 (NodeCache.flushAll (appCache w1)) in
      (w2, json 200 (JObject [("success", JBool true);
                              ("file", withoutContent newFile)]))
  end.

(** *** 2. List files *)

Definition list_files (w : World) : World * Response :=
  (w, json 200 (JArray (map withoutContent (db_files w)))).

(** *** 3. Delete *)

(** [unlink_ok]: whether [fs.unlinkSync] succeeds, should it be called. *)
Definition delete_file (unlink_ok : bool) (id_ : string) (w : World)
  : World * Response :=
  let ok := json 200 (JObject [("success", JBool true)]) in
  match findIndex (fun f => String.eqb (id f) id_) (db_files w) with
  | Some fileIndex =>
      let disk1 :=
        match db_files w !! fileIndex with
        | Some file =>
            if decide (path file ∈ disk w) then
              if unlink_ok then disk w ∖ {[path file]} else disk w
            else disk w
        | None => disk w
        end in
      let w1 :=
        {| db_files := db_files w; db_writes := db_writes w; disk := disk1;
           appCache := appCache w; upstream_calls := upstream_calls w |} in
      let w2 := writeDb (splice1 fileIndex (db_files w)) w1 in
      (with_cache w2 (NodeCache.flushAll (appCache w2)), ok)
  | None => (w, ok)
  end.

(** *** 4. Ask *)

Record AskRequest := { message : string; history : list Message }.

(** What the outside world supplies to one request: [process.env.API_KEY],
    the clock, and the reply the model service gives to a call. *)
Record AskEnv := {
  API_KEY : option string;
  ask_now : Z;
  generateContentStream : UpstreamCall -> UpstreamReply
}.

Definition missing (apiKey : option string) : bool :=
  match apiKey with
  | Some k => negb (truthy_string k)
  | None => true
  end.

(** [`ask_${message}_${JSON.stringify(history.length)}`] *)
Definition cacheKey (req : AskRequest) : string :=
  "ask_" +:+ message req +:+ "_" +:+ pretty (length (history req)).

Definition build_systemInstruction (selectedContext : string) : string :=
  lit "Você é o Gonçalinho, um analista de dados especialista em indicadores de São Gonçalo dos Campos." +:+ LF
  +:+ LF
  +:+ lit "CONTEXTO GEOGRÁFICO:" +:+ LF
  +:+ lit "- Se o usuário não especificar a cidade, ASSUMA AUTOMATICAMENTE que se refere a "
  +:+ quoted (lit "São Gonçalo dos Campos") +:+ "." +:+ LF
  +:+ "- As siglas " +:+ quoted "SGC" +:+ " e " +:+ quoted "Songa"
  +:+ " significam " +:+ quoted (lit "São Gonçalo dos Campos") +:+ "." +:+ LF
  +:+ lit "- Priorize dados locais desta cidade ao responder, a menos que uma comparação explícita seja solicitada." +:+ LF
  +:+ LF
  +:+ lit "DADOS DISPONÍVEIS:" +:+ LF
  +:+ selectedContext +:+ LF
  +:+ LF
  +:+ "DIRETRIZES:" +:+ LF
  +:+ "1. Responda com base ESTRITAMENTE nos dados acima." +:+ LF
  +:+ lit "2. Se a informação não estiver nos arquivos, diga que não encontrou nos dados disponíveis." +:+ LF
  +:+ lit "3. SEMPRE que a resposta envolver comparação de dados numéricos (ex: entre cidades, anos, categorias) ou apresentar uma série de dados estatísticos, gere AUTOMATICAMENTE um gráfico representativo. Retorne o JSON do gráfico no final da resposta, sem markdown de bloco de código, no formato: " +:+ LF
  +:+ "{" +:+ quoted "chart" +:+ ": { " +:+ quoted "type" +:+ ": "
  +:+ quoted "bar" +:+ ", " +:+ quoted "title" +:+ ": " +:+ quoted "..."
  +:+ ", " +:+ quoted "data" +:+ ": [{" +:+ quoted "label" +:+ ": "
  +:+ quoted "A" +:+ ", " +:+ quoted "value" +:+ ": 10}, ...] }}" +:+ LF
  +:+ "4. Use Markdown para formatar tabelas e textos." +:+ LF
  +:+ lit "5. Seja direto, técnico mas acessível.".

(** [history.filter(...).map(...)] *)
Definition chatHistory (history : list Message) : list Content :=
  map (fun h => {| content_role := role h; parts := [text h] |})
    (List.filter
       (fun h => String.eqb (role h) "user" || String.eqb (role h) "model")
       history).

Definition build_call (req : AskRequest) (selectedContext : string)
  : UpstreamCall :=
  {| model := "gemini-2.5-flash";
     contents := chatHistory (history req)
                 ++ [{| content_role := "user"; parts := [message req] |}];
     systemInstruction := build_systemInstruction selectedContext;
     temperature := 2 # 10 |}.

Definition QUOTA_NOTICE : string :=
  LF +:+ LF +:+ lit "⚠️ *O sistema está com alto volume de dados (Limite de Cota Atingido). Por favor, aguarde 30 segundos e tente novamente com uma pergunta mais específica.*".

Definition ERROR_NOTICE : string :=
  LF +:+ LF +:+ "[Sistema] Erro ao processar resposta da IA. Verifique logs do servidor.".

(** [error.status === 429 || error.message?.includes("429")
     || error.message?.includes("quota")] *)
Definition rate_limited (error : UpstreamError) : bool :=
  match error_status error with Some st => st =? 429 | None => false end
  || match error_message error with
     | Some m => includes m "429" || includes m "quota"
     | None => false
     end.

Definition notice (error : UpstreamError) : string :=
  if rate_limited error then QUOTA_NOTICE else ERROR_NOTICE.

Definition TEXT_PLAIN : string * string :=
  ("Content-Type", "text/plain; charset=utf-8").
Definition CHUNKED : string * string := ("Transfer-Encoding", "chunked").

(** The request once the cache has answered [undefined] or a falsy value:
    from "Set headers for streaming" to the end of the handler.  [cache1]
    is the cache as the lookup left it. *)
Definition ask_stream (env : AskEnv) (req : AskRequest) (w : World)
    (cache1 : gmap string (string * Z)) : World * Response :=
  let selectedContext :=
    Selector.selectedContext (message req) (db_files w) in
  let call := build_call req selectedContext in
  let reply := generateContentStream env call in
  let written := List.filter truthy_string (chunks reply) in
  let fullText := concat written in
  let w1 :=
    {| db_files := db_files w; db_writes := db_writes w;
       disk := disk w; appCache := cache1;
       upstream_calls := upstream_calls w ++ [call] |} in
  match failure reply with
  | None =>
      let cache2 :=
        if 0 <? len fullText
        then NodeCache.set (ask_now env + duration reply) (cacheKey req)
               fullText cache1
        else cache1 in
      (with_cache w1 cache2,
       {| status := 200; headers := [TEXT_PLAIN; CHUNKED];
          body := Stream written |})
  | Some error =>
      (w1,
       {| status := 200; headers := [TEXT_PLAIN; CHUNKED];
          body := Stream (written ++ [notice error]) |})
  end.

(** The reply to a request served from the cache. *)
Definition replay (cachedResponse : string) : Response :=
  {| status := 200; headers := [TEXT_PLAIN]; body := Stream [cachedResponse] |}.

Definition ask (env : AskEnv) (req : AskRequest) (w : World)
  : World * Response :=
  if missing (API_KEY env) then
    (w, json 500 (JObject [("error", JString "Server API Key missing")]))
  else
    let '(cachedResponse, cache1) :=
      NodeCache.get (ask_now env) (cacheKey req) (appCache w) in
    match cachedResponse with
    | Some cachedResponse =>
        if truthy_string cachedResponse
        then (with_cache w cache1, replay cachedResponse)
        else ask_stream env req w cache1
    | None => ask_stream env req w cache1
    end.


End Server.

(** ** The client: chart post-processing of [streamResponse] *)

Module Client.
Import JS.

(** JavaScript's [\s] among the Latin-1 code units. *)
Definition is_space (c : ascii) : bool :=
  match c with
  | "009" | "010" | "011" | "012" | "013" | " " | "160" => true
  | _ => false
  end%char.

(** The longest prefix of [s] that ends in a closing brace. *)
Fixpoint upto_last_brace (s : string) : option string :=
  match s with
  | EmptyString => None
  | String c s' =>
      match upto_last_brace s' with
      | Some t => Some (String c t)
      | None => if Ascii.eqb c "}" then Some (String c EmptyString) else None
      end
  end.

(** [fullText.match(/\{[\s\S]*\}/)]: the match at the leftmost position
    where one exists, [[\s\S]*] taking as much as it can. *)
Fixpoint match_braces (s : string) : option string :=
  match s with
  | EmptyString => None
  | String c s' =>
      if Ascii.eqb c "{" then
        match upto_last_brace s' with
        | Some t => Some (String c t)
        | None => match_braces s'
        end
      else match_braces s'
  end.

Fixpoint drop_units (n : nat) (s : string) : string :=
  match n, s with
  | S n', String _ s' => drop_units n' s'
  | _, _ => s
  end.

Fixpoint drop_spaces (s : string) : string :=
  match s with
  | String c s' => if is_space c then drop_spaces s' else s
  | EmptyString => EmptyString
  end.

(** [s.replace(/fence\s*/g, "")]: left to right, each occurrence of
    [fence] removed with the white space after it.  [fuel] bounds the
    number of steps; every step consumes a code unit of [s]. *)
Fixpoint strip_go (fuel : nat) (fence s : string) : string :=
  match fuel with
  | O => s
  | S fuel' =>
      match s with
      | EmptyString => EmptyString
      | String c s' =>
          if startsWith s fence
          then strip_go fuel' fence
                 (drop_spaces (drop_units (String.length fence) s))
          else String c (strip_go fuel' fence s')
      end
  end.

Definition strip (fence s : string) : string :=
  strip_go (String.length s) fence s.

Definition FENCE : string := "```".

Definition PLACEHOLDER : string := Server.lit "Gráfico gerado:".

(** The value [streamResponse] resolves to. *)
Record Answer := { text : JSON; chartData : option JSON }.

Definition plain (fullText : string) : Answer :=
  {| text := JString fullText; chartData := None |}.

Section PostProcessing.
(** [JSON.parse]: [None] when it throws. *)
Variable JSON_parse : string -> option JSON.

(** The post-processing of the accumulated [fullText]. *)
Definition extractChart (fullText : string) : Answer :=
  match match_braces fullText with
  | Some jsonMatch =>
      let cleanJson := strip FENCE (strip (FENCE +:+ "json") jsonMatch) in
      match JSON_parse cleanJson with
      | Some parsed =>
          match Json.getProp parsed "chart" with
          | Some chart =>
              if Json.truthy chart then
                let fallback :=
                  if includes fullText FENCE then JString PLACEHOLDER
                  else JString fullText in
                {| text :=
                     match Json.getProp parsed "message" with
                     | Some m => if Json.truthy m then m else fallback
                     | None => fallback
                     end;
                   chartData := Some chart |}
              else plain fullText
          | None => plain fullText
          end
      | None => plain fullText
      end
  | None => plain fullText
  end.
End PostProcessing.

End Client.

(** ** A reader for a fragment of JSON

    [JSON.parse] is a parameter of [Client.extractChart].  To run the
    extractor on concrete answers, this module reads the fragment of JSON
    made of objects, arrays, strings with the one-letter escapes, integers
    and the three literals; on a text of the fragment it yields the value
    [JSON.parse] yields.  Fractions, exponents and [\u] escapes are outside
    the fragment and read as [None]. *)

Module JsonFragment.

Definition is_ws (c : ascii) : bool :=
  match c with
  | " " | "009" | "010" | "013" => true
  | _ => false
  end%char.

Fixpoint skip_ws (s : string) : string :=
  match s with
  | String c s' => if is_ws c then skip_ws s' else s
  | EmptyString => EmptyString
  end.

Definition digit (c : ascii) : option Z :=
  let n := Z.of_N (N_of_ascii c) in
  if (48 <=? n) && (n <=? 57) then Some (n - 48) else None.

Definition unescape (c : ascii) : option ascii :=
  match c with
  | "034" => Some "034"
  | "\" => Some "\"
  | "/" => Some "/"
  | "b" => Some "008"
  | "f" => Some "012"
  | "n" => Some "010"
  | "r" => Some "013"
  | "t" => Some "009"
  | _ => None
  end%char.

(** The characters of a string up to its closing quote, and the rest. *)
Fixpoint read_string (s : string) : option (string * string) :=
  match s with
  | EmptyString => None
  | String c s' =>
      if Ascii.eqb c "034" then Some (EmptyString, s')
      else if Ascii.eqb c "\" then
        match s' with
        | String e s'' =>
            match unescape e, read_string s'' with
            | Some u, Some (t, r) => Some (String u t, r)
            | _, _ => None
            end
        | EmptyString => None
        end
      else if (N_of_ascii c <? 32)%N then None
      else match read_string s' with
           | Some (t, r) => Some (String c t, r)
           | None => None
           end
  end.

(** The digits at the head of [s], read in base ten after [acc]. *)
Fixpoint read_digits (s : string) (acc : Z) : Z * string :=
  match s with
  | String c s' =>
      match digit c with
      | Some d => read_digits s' (10 * acc + d)
      | None => (acc, s)
      end
  | EmptyString => (acc, s)
  end.

(** An integer: [0], or a nonzero digit and more digits; no fraction or
    exponent may follow. *)
Definition read_int (s : string) : option (Z * string) :=
  match s with
  | String c s' =>
      match digit c with
      | Some d =>
          let '(n, r) := if d =? 0 then (0, s') else read_digits s' d in
          match r with
          | String "." _ | String "e" _ | String "E" _ => None
          | _ => Some (n, r)
          end
      | None => None
      end
  | EmptyString => None
  end.

Definition read_number (s : string) : option (JSON * string) :=
  match s with
  | String "-" s' =>
      match read_int s' with
      | Some (n, r) => Some (JNumber (inject_Z (- n)), r)
      | None => None
      end
  | _ =>
      match read_int s with
      | Some (n, r) => Some (JNumber (inject_Z n), r)
      | None => None
      end
  end.

(** A later member replaces an earlier one of the same name. *)
Fixpoint put (k : string) (v : JSON) (props : list (string * JSON))
  : list (string * JSON) :=
  match props with
  | [] => [(k, v)]
  | (k', v') :: rest =>
      if String.eqb k' k then (k, v) :: rest else (k', v') :: put k v rest
  end.

Fixpoint read_value (fuel : nat) (s : string) : option (JSON * string) :=
  match fuel with
  | O => None
  | S fuel' =>
      match skip_ws s with
      | String "{" r =>
          match skip_ws r with
          | String "}" r' => Some (JObject [], r')
          | r1 => read_members fuel' r1 []
          end
      | String "[" r =>
          match skip_ws r with
          | String "]" r' => Some (JArray [], r')
          | r1 => read_elements fuel' r1 []
          end
      | String "034" r =>
          match read_string r with
          | Some (t, r') => Some (JString t, r')
          | None => None
          end
      | String "t" (String "r" (String "u" (String "e" r))) =>
          Some (JBool true, r)
      | String "f" (String "a" (String "l" (String "s" (String "e" r)))) =>
          Some (JBool false, r)
      | String "n" (String "u" (String "l" (String "l" r))) =>
          Some (JNull, r)
      | s1 => read_number s1
      end
  end
with read_members (fuel : nat) (s : string) (acc : list (string * JSON))
  : option (JSON * string) :=
  match fuel with
  | O => None
  | S fuel' =>
      match skip_ws s with
      | String "034" r =>
          match read_string r with
          | Some (k, r1) =>
              match skip_ws r1 with
              | String ":" r2 =>
                  match read_value fuel' r2 with
                  | Some (v, r3) =>
                      match skip_ws r3 with
                      | String "," r4 => read_members fuel' r4 (put k v acc)
                      | String "}" r4 => Some (JObject (put k v acc), r4)
                      | _ => None
                      end
                  | None => None
                  end
              | _ => None
              end
          | None => None
          end
      | _ => None
      end
  end
with read_elements (fuel : nat) (s : string) (acc : list JSON)
  : option (JSON * string) :=
  match fuel with
  | O => None
  | S fuel' =>
      match read_value fuel' s with
      | Some (v, r) =>
          match skip_ws r with
          | String "," r' => read_elements fuel' r' (acc ++ [v])
          | String "]" r' => Some (JArray (acc ++ [v]), r')
          | _ => None
          end
      | None => None
      end
  end.

(** The value of a whole text; every step of the reader consumes a
    character, so twice the length of the text is fuel enough. *)
Definition JSON_parse (s : string) : option JSON :=
  match read_value (2 * String.length s + 2) s with
  | Some (v, r) =>
      match skip_ws r with
      | EmptyString => Some v
      | _ => None
      end
  | None => None
  end.

End JsonFragment.

(** ** The specification's wording, where it is compared with the code *)

Module AsStated.
Import JS.

(** "Tokenize the query by whitespace": a token ends at any white
    space character. *)
Fixpoint split_whitespace (s : string) : list string :=
  match s with
  | EmptyString => [EmptyString]
  | String c s' =>
      if Client.is_space c then EmptyString :: split_whitespace s'
      else match split_whitespace s' with
           | t :: ts => String c t :: ts
           | [] => [String c EmptyString]
           end
  end.

(** "Discard tokens shorter than 4 characters, lowercase the remaining
    tokens." *)
Definition tokens (query : string) : list string :=
  map toLowerCase
    (List.filter (fun t => negb (len t <? 4)) (split_whitespace query)).

(** "The concatenation of the document's name, caseName, category and
    description." *)
Definition metadata (f : FileRecord) : string :=
  name f +:+ caseName f +:+ category f +:+ description f.

(** "Add exactly 10 points for each such token that occurs as a
    substring (case-insensitive)" of the metadata. *)
Definition score (query : string) (f : FileRecord) : Z :=
  10 * Z.of_nat
         (length (List.filter (includes (toLowerCase (metadata f)))
                    (tokens query))).

(** The chart extractor as worded: a chart whenever the parsed object
    has a [chart] field, the [message] field as display text whenever
    it is present. *)
Definition extractChart (JSON_parse : string -> option JSON)
    (fullText : string) : Client.Answer :=
  match Client.match_braces fullText with
  | Some jsonMatch =>
      match JSON_parse
              (Client.strip Client.FENCE
                 (Client.strip (Client.FENCE +:+ "json") jsonMatch)) with
      | Some parsed =>
          match Json.getProp parsed "chart" with
          | Some chart =>
              {| Client.text :=
                   match Json.getProp parsed "message" with
                   | Some m => m
                   | None =>
                       if includes fullText Client.FENCE
                       then JString Client.PLACEHOLDER
                       else JString fullText
                   end;
                 Client.chartData := Some chart |}
          | None => Client.plain fullText
          end
      | None => Client.plain fullText
      end
  | None => Client.plain fullText
  end.

End AsStated.

(** ** Sample data *)

Module Samples.
Import JS.

Definition doc (id_ name_ caseName_ description_ content_ : string)
  : FileRecord :=
  {| id := id_; name := name_; path := "/data/uploads/" +:+ name_;
     type := "csv"; content := content_; timestamp := 1700000000000;
     category := "Geral"; description := description_; source := "IBGE";
     period := "2022"; caseName := caseName_ |}.

Definition pop : FileRecord :=
  doc "id-1" "populacao.csv" "Censo" "habitantes por bairro" "bairro,total".
Definition pib : FileRecord :=
  doc "id-2" "pib.csv" "Economia" "produto interno bruto" "ano,valor".
Definition saude : FileRecord :=
  doc "id-3" "saude.csv" "Saude" "leitos e populacao atendida" "ano,leitos".

Definition collection : list FileRecord := [pop; pib; saude].


Definition world : Server.World :=
  {| Server.db_files := collection; Server.db_writes := 0%nat;
     Server.disk := ∅; Server.appCache := ∅; Server.upstream_calls := [] |}.

(** A model service that answers in two chunks, and one that fails with a
    quota error after the first chunk. *)
Definition answering (now : Z) : Server.AskEnv :=
  {| Server.API_KEY := Some "key"; Server.ask_now := now;
     Server.generateContentStream := fun _ =>
       {| Server.chunks := ["Sao "; ""; "32 mil."]; Server.failure := None;
          Server.duration := 800 |} |}.

Definition failing (now : Z) : Server.AskEnv :=
  {| Server.API_KEY := Some "key"; Server.ask_now := now;
     Server.generateContentStream := fun _ =>
       {| Server.chunks := ["Sao "];
          Server.failure :=
            Some {| Server.error_status := Some 429;
                    Server.error_message := Some "quota exceeded" |};
          Server.duration := 800 |} |}.

Definition question : Server.AskRequest :=
  {| Server.message := "qual a populacao"; Server.history := [] |}.

Definition sample_readers : Server.Readers :=
  {| Server.readFileSync_utf8 := fun _ => Server.Returned "bairro,total";
     Server.readFileSync := fun _ => Server.Returned "bytes";
     Server.XLSX_readFile := fun _ => Server.Threw "File is password-protected";
     Server.XLSX_sheet_to_csv := fun s => Server.Returned s;
     Server.mammoth_extractRawText := fun _ => Server.Returned "texto";
     Server.pdfParse := fun _ => Server.Threw "Invalid PDF structure" |}.

Definition upload_env : Server.UploadEnv :=
  {| Server.readers := sample_readers; Server.randomUUID := "id-4";
     Server.upload_now := 1700000005000 |}.

Definition csv_upload : Server.Upload :=
  {| Server.upload_path := "/data/uploads/1700000005000-escolas.CSV";
     Server.mimetype := "text/csv"; Server.originalname := "escolas.CSV" |}.



Definition some_metadata : Server.Metadata :=
  {| Server.meta_category := ""; Server.meta_description := "escolas";
     Server.meta_source := "INEP"; Server.meta_period := "2023";
     Server.meta_caseName := "Educacao" |}.

End Samples.

(** * Properties *)

(** ** Strings *)

Section StringFacts.
Import JS.

Lemma length_append (a b : string) :
  String.length (a +:+ b) = (String.length a + String.length b)%nat.
Proof. induction a as [|c a IH]; simpl; [done | by rewrite IH]. Qed.

Lemma len_append (a b : string) : len (a +:+ b) = len a + len b.
Proof. unfold len. rewrite length_append. lia. Qed.

Lemma len_empty : len EmptyString = 0.
Proof. reflexivity. Qed.

Lemma len_nonneg (s : string) : 0 <= len s.
Proof. unfold len. lia. Qed.

Lemma append_cons (x : ascii) (a b : string) :
  String x a +:+ b = String x (a +:+ b).
Proof. reflexivity. Qed.

Lemma append_assoc (a b c : string) : (a +:+ b) +:+ c = a +:+ (b +:+ c).
Proof.
    induction a as [|x a IH]; [reflexivity |].
    by rewrite !append_cons, IH.
Qed.

Lemma append_empty_r (a : string) : a +:+ EmptyString = a.
Proof.
    induction a as [|x a IH]; [reflexivity |].
    by rewrite append_cons, IH.
Qed.





Lemma take_units_length (n : nat) (s : string) :
  String.length (take_units n s) = Nat.min n (String.length s).
Proof.
    revert s. induction n as [|n IH]; intros [|c s]; simpl; try done.
    by rewrite IH.
Qed.


Lemma concat_cons (x : string) (l : list string) :
  concat (x :: l) = x +:+ concat l.
Proof. reflexivity. Qed.

Lemma concat_app (l1 l2 : list string) :
  concat (l1 ++ l2) = concat l1 +:+ concat l2.
Proof.
    induction l1 as [|x l1 IH]; [done |].
    rewrite <- app_comm_cons, !concat_cons, IH. by rewrite append_assoc.
Qed.

Lemma truthy_string_len (s : string) : truthy_string s = (0 <? len s).
Proof. destruct s; [done |]. unfold len. simpl. symmetry. apply Z.ltb_lt. lia. Qed.

End StringFacts.

(** ** [Array.prototype.sort] with a comparator [b.key - a.key] *)

Section SortFacts.
Import JS.
Context {A : Type} (key : A -> Z).

Definition by_key_desc (a b : A) : Z := key b - key a.

Lemma sort_insert_Permutation (x : A) (l : list A) :
  sort_insert by_key_desc x l ≡ₚ x :: l.
Proof.
    induction l as [|y l IH]; simpl; [done |].
    destruct (by_key_desc x y <=? 0); [done |].
    rewrite IH. apply Permutation_swap.
Qed.

Lemma Array_sort_Permutation (l : list A) : Array_sort by_key_desc l ≡ₚ l.
Proof.
    induction l as [|x l IH]; simpl; [done |].
    by rewrite sort_insert_Permutation, IH.
Qed.

Definition ge_key (a b : A) : Prop := key b <= key a.

Lemma sort_insert_sorted (x : A) (l : list A) :
  StronglySorted ge_key l -> StronglySorted ge_key (sort_insert by_key_desc x l).
Proof.
    induction 1 as [|y l Hl IH Hy]; simpl.
    - repeat constructor.
    - unfold by_key_desc at 1. destruct (Z.leb_spec (key y - key x) 0) as [Hle|Hgt].
      + constructor; [by constructor |].
        constructor; [unfold ge_key; lia |].
        eapply Forall_impl; [exact Hy |]. unfold ge_key. intros z Hz. lia.
      + constructor; [exact IH |].
        rewrite sort_insert_Permutation. constructor; [unfold ge_key; lia | done].
Qed.

Lemma Array_sort_sorted (l : list A) :
  StronglySorted ge_key (Array_sort by_key_desc l).
Proof.
    induction l as [|x l IH]; simpl; [constructor |].
    by apply sort_insert_sorted.
Qed.

(** Stability: the elements of any one key keep their order. *)
Lemma sort_insert_filter (s : Z) (x : A) (l : list A) :
  List.filter (fun a => key a =? s) (sort_insert by_key_desc x l)
  = List.filter (fun a => key a =? s) (x :: l).
Proof.
    induction l as [|y l IH]; [done |].
    cbn [sort_insert]. unfold by_key_desc at 1.
    destruct (Z.leb_spec (key y - key x) 0) as [Hle|Hgt]; [done |].
    cbn [List.filter] in *. rewrite IH.
    destruct (Z.eqb_spec (key x) s), (Z.eqb_spec (key y) s); try done. lia.
Qed.

Lemma Array_sort_stable (s : Z) (l : list A) :
  List.filter (fun a => key a =? s) (Array_sort by_key_desc l)
  = List.filter (fun a => key a =? s) l.
Proof.
    induction l as [|x l IH]; [done |].
    cbn [Array_sort]. rewrite sort_insert_filter. cbn [List.filter].
    by rewrite IH.
Qed.



Lemma sorted_lookup_le (l : list A) (i j : nat) (a b : A) :
  StronglySorted ge_key l -> (i < j)%nat ->
  l !! i = Some a -> l !! j = Some b -> key b <= key a.
Proof.
    intros Hs. revert i j. induction Hs as [|x l Hl IH Hx]; intros i j Hij Hi Hj.
    - by rewrite lookup_nil in Hi.
    - destruct j as [|j]; [lia |]. simpl in Hj. destruct i as [|i].
      + simpl in Hi. injection Hi as ->.
        rewrite Forall_forall in Hx. apply Hx. by eapply list_elem_of_lookup_2.
      + simpl in Hi. eapply IH; [| exact Hi | exact Hj]. lia.
Qed.

End SortFacts.

(** ** The relevance selector *)

Section SelectorFacts.
Import JS Selector.




Lemma score_loop (meta : string) (kws : list string) (acc : Z) :
  fold_left (fun score k => if includes meta k then score + 10 else score)
    kws acc
  = acc + 10 * Z.of_nat (length (List.filter (includes meta) kws)).
Proof.
    revert acc. induction kws as [|k kws IH]; intros acc; [simpl; lia |].
    cbn [fold_left List.filter]. rewrite IH.
    destruct (includes meta k); cbn [length]; lia.
Qed.

Lemma score_of_count (kws : list string) (f : FileRecord) :
  score_of kws f
  = 10 * Z.of_nat (length (List.filter (includes (fullMeta f)) kws)).
Proof. unfold score_of. rewrite score_loop. lia. Qed.

Lemma score_of_nonneg (kws : list string) (f : FileRecord) :
  0 <= score_of kws f.
Proof. rewrite score_of_count. lia. Qed.

Lemma score_of_no_match (kws : list string) (f : FileRecord) :
  Forall (fun k => includes (fullMeta f) k = false) kws -> score_of kws f = 0.
Proof.
    intros Hno. rewrite score_of_count.
    replace (List.filter (includes (fullMeta f)) kws) with (@nil string); [done |].
    induction Hno as [|k kws Hk _ IH]; [done |].
    cbn [List.filter]. by rewrite Hk.
Qed.

Lemma map_file_score_file (kws : list string) (files : list FileRecord) :
  map file (map (score_file kws) files) = files.
Proof. induction files as [|f files IH]; [done |]. simpl. by rewrite IH. Qed.

Definition block (item : Scored) : string := fileBlock (file item).

(** The loop appends the blocks of the first [k] items, for the [k] at
    which it breaks or runs out of items. *)
Lemma packLoop_prefix (budget : Z) (items : list Scored)
    (currentChars : Z) (acc : string) :
  exists k : nat,
    (k <= length items)%nat
    /\ packLoop budget items currentChars acc
       = (currentChars + len (concat (map block (take k items))),
          acc +:+ concat (map block (take k items)))
    /\ (forall j : nat, (0 < j <= k)%nat ->
          currentChars + len (concat (map block (take j items))) < budget)
    /\ (forall item, items !! k = Some item ->
          budget <= currentChars + len (concat (map block (take k items)))
                    + len (block item)).
Proof.
    revert currentChars acc.
    induction items as [|item rest IH]; intros cur acc.
    - exists 0%nat. cbn. rewrite append_empty_r, len_empty.
      refine (conj _ (conj _ (conj _ _))); [lia | f_equal; lia | intros; lia | done].
    - cbn [packLoop]. fold (block item).
      destruct (Z.ltb_spec (cur + len (block item)) budget) as [Hfit|Hfull].
      + destruct (IH (cur + len (block item)) (acc +:+ block item))
          as (k & Hk & Hrun & Hunder & Hstop).
        exists (S k). cbn [take map length lookup list_lookup].
        rewrite !concat_cons, !len_append, Hrun.
        refine (conj _ (conj _ (conj _ _))).
        * lia.
        * f_equal; [lia | apply append_assoc].
        * intros [|j] Hj; [lia |]. cbn [take map].
          rewrite concat_cons, len_append.
          destruct j as [|j].
          { change (concat (map block (take 0 rest))) with EmptyString.
            rewrite len_empty. lia. }
          specialize (Hunder (S j)). lia.
        * intros it Hit. specialize (Hstop it Hit). lia.
      + exists 0%nat. cbn. rewrite append_empty_r, len_empty.
        refine (conj _ (conj _ (conj _ _))); [lia | f_equal; lia | intros; lia |].
        intros it [= <-]. fold (block item). lia.
Qed.



Lemma len_contentSnippet (f : FileRecord) :
  len (contentSnippet f) = Z.min SNIPPET_CHARS (len (content f)).
Proof.
    unfold contentSnippet. destruct (content f) as [|c s] eqn:E.
    - cbn. unfold SNIPPET_CHARS. done.
    - cbn [truthy_string]. unfold slice0, len. rewrite take_units_length.
      rewrite Nat2Z.inj_min, Z2Nat.id; [done | by unfold SNIPPET_CHARS].
Qed.

End SelectorFacts.

(** ** The claims about the relevance selector *)

Section SelectorClaims.
Import JS Selector.


(** C3. The selector's order is a stable sort by non-increasing score: it
  permutes the scored documents, no document stands ahead of one with a
  larger score, and the documents of any one score keep their original
  order.  A document none of whose keywords match scores 0, and one
  that scores 0 never stands ahead of a document with a positive score. *)
Theorem C3_stable_descending_order (message : string) (files : list FileRecord) :
let scored := map (score_file (keywords message)) files in
let sorted := sortedFiles message files in
sorted ≡ₚ scored
/\ (forall (i j : nat) a b, (i < j)%nat ->
      sorted !! i = Some a -> sorted !! j = Some b -> score b <= score a)
/\ (forall s : Z,
      List.filter (fun x => score x =? s) sorted
      = List.filter (fun x => score x =? s) scored)
/\ (forall f,
      Forall (fun k => includes (fullMeta f) k = false) (keywords message) ->
      score (score_file (keywords message) f) = 0)
/\ (forall (i j : nat) a b, (i < j)%nat ->
      sorted !! i = Some a -> sorted !! j = Some b ->
      score a = 0 -> score b <= 0).
Proof.
  intros scored sorted. subst scored sorted. unfold sortedFiles.
  change (fun a b : Scored => score b - score a) with (by_key_desc score).
  pose proof (Array_sort_sorted score
                (map (score_file (keywords message)) files)) as Hsorted.
  refine (conj _ (conj _ (conj _ (conj _ _)))).
  - apply Array_sort_Permutation.
  - intros i j a b Hij Hi Hj. by eapply (sorted_lookup_le score).
  - intros s. apply Array_sort_stable.
  - intros f Hno. cbn. by apply score_of_no_match.
  - intros i j a b Hij Hi Hj Ha.
    pose proof (sorted_lookup_le score _ _ _ _ _ Hsorted Hij Hi Hj). lia.
Qed.

End SelectorClaims.

Section ScoreClaims.
Import JS Selector.





End ScoreClaims.

(** ** The document store: upload, list, delete *)

Section StoreFacts.
Import JS Server.

Lemma findIndex_None {A : Type} (p : A -> bool) (l : list A) :
  Forall (fun x => p x = false) l -> findIndex p l = None.
Proof.
    induction 1 as [|x l Hx _ IH]; [done |].
    cbn [findIndex]. by rewrite Hx, IH.
Qed.

Lemma findIndex_Some {A : Type} (p : A -> bool) (l : list A) (i : nat) :
  findIndex p l = Some i -> exists x, l !! i = Some x /\ p x = true.
Proof.
    revert i. induction l as [|x l IH]; intros i; [done |].
    cbn [findIndex]. destruct (p x) eqn:Hx.
    - intros [= <-]. by exists x.
    - destruct (findIndex p l) as [j|]; [|done].
      intros [= <-]. apply (IH j eq_refl).
Qed.




Lemma with_cache_same (w : World) : with_cache w (appCache w) = w.
Proof. by destruct w. Qed.

Lemma id_differs (id_ : string) (files : list FileRecord) :
  Forall (fun g => id g <> id_) files ->
  Forall (fun g => String.eqb (id g) id_ = false) files.
Proof.
    intros H. eapply Forall_impl; [exact H |].
    intros g Hg. by apply String.eqb_neq.
Qed.

Definition SUCCESS : Response := json 200 (JObject [("success", JBool true)]).

Lemma delete_file_absent (unlink_ok : bool) (id_ : string) (w : World) :
  Forall (fun g => id g <> id_) (db_files w) ->
  delete_file unlink_ok id_ w = (w, SUCCESS).
Proof.
    intros Habsent. unfold delete_file.
    by rewrite (findIndex_None _ _ (id_differs _ _ Habsent)).
Qed.


(** Either a record carries the id, or the delete leaves the state as it
    found it. *)
Lemma delete_file_present_or_unchanged (unlink_ok : bool) (id_ : string)
    (w : World) :
  (exists g, g ∈ db_files w /\ id g = id_)
  \/ fst (delete_file unlink_ok id_ w) = w.
Proof.
    unfold delete_file.
    destruct (findIndex _ _) as [i|] eqn:E; [left | by right].
    apply findIndex_Some in E as (g & Hg & Hid).
    exists g. split; [by eapply list_elem_of_lookup_2 | by apply String.eqb_eq].
Qed.

End StoreFacts.

Section StoreClaims.
Import JS Server.

(** C10. Deleting an id that no record carries changes nothing but the
    response: the state (collection, count of database writes, files on
    disk, cache, upstream calls) is what it was, the response is
    [{success: true}], and a request that was served from the cache is
    served as before.  A delete that changes the cache found a record. *)
Theorem C10_delete_of_absent_id_is_a_no_op (unlink_ok : bool) (id_ : string) (w : World) :
  Forall (fun g => id g <> id_) (db_files w) ->
  delete_file unlink_ok id_ w = (w, SUCCESS)
  /\ db_writes (fst (delete_file unlink_ok id_ w)) = db_writes w
  /\ disk (fst (delete_file unlink_ok id_ w)) = disk w
  /\ appCache (fst (delete_file unlink_ok id_ w)) = appCache w
  /\ (forall env req,
        ask env req (fst (delete_file unlink_ok id_ w)) = ask env req w)
  /\ (forall u i w',
        (exists g, g ∈ db_files w' /\ id g = i)
        \/ appCache (fst (delete_file u i w')) = appCache w').
Proof.
    intros Habsent. rewrite (delete_file_absent _ _ _ Habsent). cbn [fst].
    refine (conj eq_refl (conj eq_refl (conj eq_refl (conj eq_refl (conj _ _))))).
    - done.
    - intros u i w'.
      destruct (delete_file_present_or_unchanged u i w') as [Hp | ->];
        [by left | by right].
Qed.

(** The hypothesis of C10 holds of the id [id-9] in the sample world. *)
Lemma C10_witness_unknown_id :
  Forall (fun g => id g <> "id-9") (db_files Samples.world)
  /\ delete_file true "id-9" Samples.world = (Samples.world, SUCCESS).
Proof.
    assert (H : Forall (fun g => id g <> "id-9") (db_files Samples.world)).
    { repeat constructor; discriminate. }
    split; [exact H |].
    exact (proj1 (C10_delete_of_absent_id_is_a_no_op true "id-9" Samples.world H)).
Defined.



End StoreClaims.

(** ** The text extractor *)

Section ExtractClaims.
Import JS Server.



End ExtractClaims.

(** ** The answer cache and the ask handler *)

Section AskFacts.
Import JS Server.


Lemma get_after_set (now1 now2 : Z) (key value : string)
    (data : gmap string (string * Z)) :
  now2 <= now1 + 3600000 ->
  NodeCache.get now2 key (NodeCache.set now1 key value data)
  = (Some value, NodeCache.set now1 key value data).
Proof.
    intros Hlive. unfold NodeCache.get, NodeCache.set, NodeCache.stdTTL.
    rewrite lookup_insert_eq.
    destruct (Z.ltb_spec (now1 + 3600 * 1000) now2); [lia |].
    by rewrite andb_false_r.
Qed.

Lemma ask_replay (env : AskEnv) (req : AskRequest) (w : World) (v : string) :
  missing (API_KEY env) = false ->
  NodeCache.get (ask_now env) (cacheKey req) (appCache w) = (Some v, appCache w) ->
  truthy_string v = true ->
  ask env req w = (w, replay v).
Proof.
    intros Hkey Hget Hv. unfold ask. rewrite Hkey, Hget, Hv.
    by rewrite with_cache_same.
Qed.

Lemma ask_miss (env : AskEnv) (req : AskRequest) (w : World) :
  missing (API_KEY env) = false ->
  (forall v, fst (NodeCache.get (ask_now env) (cacheKey req) (appCache w)) = Some v ->
             truthy_string v = false) ->
  ask env req w
  = ask_stream env req w
      (snd (NodeCache.get (ask_now env) (cacheKey req) (appCache w))).
Proof.
    intros Hkey Hmiss. unfold ask. rewrite Hkey.
    destruct (NodeCache.get _ _ _) as [[v|] cache1]; [|done].
    cbn [fst snd] in *. by rewrite (Hmiss v eq_refl).
Qed.

Lemma ask_stream_calls (env : AskEnv) (req : AskRequest) (w : World)
    (cache1 : gmap string (string * Z)) :
  upstream_calls (fst (ask_stream env req w cache1))
  = upstream_calls w
    ++ [build_call req (Selector.selectedContext (message req) (db_files w))].
Proof. unfold ask_stream. by destruct (failure _). Qed.




End AskFacts.

Section AskClaims.
Import JS Server.





End AskClaims.


(** ** The chart extractor *)

Section ChartFacts.
Import JS Client.

Lemma includes_cons (c : ascii) (s k : string) :
  includes (String c s) k = startsWith (String c s) k || includes s k.
Proof. reflexivity. Qed.


Lemma includes_char_cons (x c : ascii) (s : string) :
  includes (String x s) (String c EmptyString)
  = Ascii.eqb c x || includes s (String c EmptyString).
Proof.
    rewrite includes_cons. cbn [startsWith].
    destruct (Ascii.eqb c x); [by destruct s | done].
Qed.

Lemma no_close_upto (s : string) :
  includes s "}" = false -> upto_last_brace s = None.
Proof.
    induction s as [|c s IH]; [done |].
    rewrite includes_char_cons. intros [Hc Hs]%orb_false_elim.
    cbn [upto_last_brace]. rewrite (IH Hs), Ascii.eqb_sym. by rewrite Hc.
Qed.



Lemma no_close_no_match (s : string) :
  includes s "}" = false -> match_braces s = None.
Proof.
    induction s as [|c s IH]; [done |].
    rewrite includes_char_cons. intros [_ Hs]%orb_false_elim.
    cbn [match_braces]. rewrite (no_close_upto s Hs), (IH Hs).
    by destruct (Ascii.eqb c "{").
Qed.



Lemma length_drop_spaces (s : string) :
  (String.length (drop_spaces s) <= String.length s)%nat.
Proof.
    induction s as [|c s IH]; [done |].
    cbn [drop_spaces]. destruct (is_space c); cbn [String.length]; lia.
Qed.

Lemma length_drop_units (n : nat) (s : string) :
  (String.length (drop_units n s) <= String.length s)%nat.
Proof.
    revert s. induction n as [|n IH]; intros [|c s]; cbn [drop_units]; try done.
    specialize (IH s). cbn [String.length]. lia.
Qed.

(** The fuel [strip] gives is enough: more of it changes nothing. *)
Lemma strip_go_fuel (fence s : string) (n m : nat) :
  fence <> EmptyString ->
  (String.length s <= n)%nat -> (String.length s <= m)%nat ->
  strip_go n fence s = strip_go m fence s.
Proof.
    intros Hfence. revert m s.
    induction n as [|n IH]; intros m s Hn Hm.
    - destruct s; [by destruct m | cbn in Hn; lia].
    - destruct s as [|c s]; [by destruct m |].
      destruct m as [|m]; [cbn in Hm; lia |].
      cbn [String.length] in Hn, Hm. cbn [strip_go].
      destruct (startsWith (String c s) fence).
      + destruct fence as [|x fence]; [done |].
        cbn [String.length drop_units].
        pose proof (length_drop_spaces (drop_units (String.length fence) s)).
        pose proof (length_drop_units (String.length fence) s).
        apply IH; lia.
      + f_equal. apply IH; lia.
Qed.

End ChartFacts.

Section ChartClaims.
Import JS Client.



End ChartClaims.

(** ** The handlers on the sample data *)

Section Runs.
Import JS Server.

(** The two documents that mention [populacao] come first, in their
    original order; the third scores 0. *)
Example sorted_sample :
  map (fun item => (name (Selector.file item), Selector.score item))
    (Selector.sortedFiles "Qual a POPULACAO" Samples.collection)
  = [("populacao.csv", 10); ("saude.csv", 10); ("pib.csv", 0)].
Proof. reflexivity. Qed.

Example extname_sample :
  map extname ["escolas.CSV"; "a.tar.gz"; ".bashrc"; "LEIAME"; "dados."]
  = [".CSV"; ".gz"; ""; ""; "."].
Proof. reflexivity. Qed.

Example extract_unsupported :
  extractText Samples.sample_readers "/data/uploads/1-dados.ZIP"
    "application/zip" "dados.ZIP" = "".
Proof. reflexivity. Qed.

Example extract_sheets :
  extractText
    {| readFileSync_utf8 := fun _ => Threw "ENOENT";
       readFileSync := fun _ => Threw "ENOENT";
       XLSX_readFile := fun _ =>
         Returned {| SheetNames := ["2022"; "2023"];
                     Sheets := fun n => "ano," +:+ n |};
       XLSX_sheet_to_csv := fun s => Returned s;
       mammoth_extractRawText := fun _ => Threw "ENOENT";
       pdfParse := fun _ => Threw "ENOENT" |}
    "/data/uploads/1-pib.xlsx" "application/vnd.ms-excel" "pib.xlsx"
  = "Arquivo Excel: pib.xlsx" +:+ LF
    +:+ LF +:+ "--- Planilha: 2022 ---" +:+ LF +:+ "ano,2022"
    +:+ LF +:+ "--- Planilha: 2023 ---" +:+ LF +:+ "ano,2023".
Proof. reflexivity. Qed.

(** The specification's example of an answer with a chart. *)
Example chart_sample :
  Client.extractChart JsonFragment.JSON_parse
    ("Resultado: {" +:+ quoted "chart" +:+ ":{" +:+ quoted "type" +:+ ":"
     +:+ quoted "bar" +:+ "," +:+ quoted "data" +:+ ":[{" +:+ quoted "label"
     +:+ ":" +:+ quoted "A" +:+ "," +:+ quoted "value" +:+ ":1}]}}")
  = {| Client.text :=
         JString
           ("Resultado: {" +:+ quoted "chart" +:+ ":{" +:+ quoted "type"
            +:+ ":" +:+ quoted "bar" +:+ "," +:+ quoted "data" +:+ ":[{"
            +:+ quoted "label" +:+ ":" +:+ quoted "A" +:+ ","
            +:+ quoted "value" +:+ ":1}]}}");
       Client.chartData :=
         Some (JObject
                 [("type", JString "bar");
                  ("data", JArray [JObject [("label", JString "A");
                                            ("value", JNumber 1)]])]) |}.
Proof. vm_compute. reflexivity. Qed.

Example chart_in_fence :
  Client.extractChart JsonFragment.JSON_parse
    ("```json" +:+ LF +:+ "{" +:+ quoted "chart" +:+ ":[1]}" +:+ LF +:+ "```")
  = {| Client.text := JString Client.PLACEHOLDER;
       Client.chartData := Some (JArray [JNumber 1]) |}.
Proof. vm_compute. reflexivity. Qed.

Example chart_malformed :
  Client.extractChart JsonFragment.JSON_parse "veja {chart: 1} acima"
  = Client.plain "veja {chart: 1} acima".
Proof. reflexivity. Qed.



End Runs.


(** * Further properties of the code *)

(** ** The selector: matching field by field, and what fits the budget *)

Module Fields.
Import JS.

(** Whether the keyword [k] occurs in one of the four lowered fields that
    [Selector.fullMeta] joins. *)
Definition in_some_field (f : FileRecord) (k : string) : bool :=
  includes (toLowerCase (name f)) k
  || includes (toLowerCase (caseName f)) k
  || includes (toLowerCase (category f)) k
  || includes (toLowerCase (description f)) k.

(** The code units of the six fields that a block shows beside the content. *)
Definition shown_metadata (f : FileRecord) : Z :=
  len (name f) + len (category f) + len (caseName f) + len (period f)
  + len (source f) + len (description f).

(** The sum of the lengths of the strings of a list. *)
Definition total_length (l : list string) : Z :=
  fold_right (fun s acc => len s + acc) 0 l.

End Fields.

Section FieldFacts.
Import JS Selector Fields.

Lemma toLowerCase_append (a b : string) :
  toLowerCase (a +:+ b) = toLowerCase a +:+ toLowerCase b.
Proof.
  induction a as [|c a IH]; [done |].
  rewrite append_cons. cbn [toLowerCase]. by rewrite IH, append_cons.
Qed.

Lemma includes_unit_cons (x c : ascii) (s : string) :
  includes (String x s) (String c EmptyString)
  = Ascii.eqb c x || includes s (String c EmptyString).
Proof.
  change (includes (String x s) (String c EmptyString))
    with (startsWith (String x s) (String c EmptyString)
          || includes s (String c EmptyString)).
  cbn [startsWith]. destruct (Ascii.eqb c x); [by destruct s | done].
Qed.

(** No token of [split] holds the separator. *)
Lemma split_tokens_without_separator (sep : ascii) (s : string) :
  Forall (fun t => includes t (String sep EmptyString) = false) (split sep s).
Proof.
  induction s as [|c s IH]; [by repeat constructor |].
  cbn [split]. destruct (Ascii.eqb c sep) eqn:Hc.
  - by constructor.
  - assert (Hsym : Ascii.eqb sep c = false) by (by rewrite Ascii.eqb_sym).
    destruct (split sep s) as [|t ts].
    + repeat constructor. by rewrite includes_unit_cons, Hsym.
    + apply Forall_cons in IH as [Ht Hts]. constructor; [|done].
      by rewrite includes_unit_cons, Hsym, Ht.
Qed.

(** A string without spaces starts a text that goes on after a space only
    if it starts the part before the space. *)
Lemma startsWith_before_space (s b k : string) :
  includes k " " = false ->
  startsWith (s +:+ String " " b) k = startsWith s k.
Proof.
  revert k. induction s as [|c s IH]; intros k Hk.
  - destruct k as [|x k]; [done |].
    rewrite includes_unit_cons in Hk. apply orb_false_elim in Hk as [Hx _].
    change (EmptyString +:+ String " " b) with (String " " b).
    cbn [startsWith]. rewrite Ascii.eqb_sym. by rewrite Hx.
  - destruct k as [|x k]; [done |].
    rewrite includes_unit_cons in Hk. apply orb_false_elim in Hk as [_ Hk].
    rewrite append_cons. cbn [startsWith]. by rewrite (IH k Hk).
Qed.

Lemma includes_across_space (a b k : string) :
  k <> EmptyString -> includes k " " = false ->
  includes (a +:+ String " " b) k = includes a k || includes b k.
Proof.
  intros Hne Hk. induction a as [|c a IH].
  - change (EmptyString +:+ String " " b) with (String " " b).
    change (includes (String " " b) k)
      with (startsWith (String " " b) k || includes b k).
    destruct k as [|x k]; [done |].
    rewrite includes_unit_cons in Hk. apply orb_false_elim in Hk as [Hx _].
    cbn [includes startsWith]. rewrite Ascii.eqb_sym, Hx. done.
  - rewrite append_cons.
    change (includes (String c (a +:+ String " " b)) k)
      with (startsWith (String c (a +:+ String " " b)) k
            || includes (a +:+ String " " b) k).
    rewrite IH. rewrite <- append_cons, (startsWith_before_space _ _ _ Hk).
    change (includes (String c a) k)
      with (startsWith (String c a) k || includes a k).
    by rewrite orb_assoc.
Qed.

Lemma includes_joined (a b k : string) :
  k <> EmptyString -> includes k " " = false ->
  includes (a +:+ " " +:+ b) k = includes a k || includes b k.
Proof. apply includes_across_space. Qed.

Lemma fullMeta_fields (f : FileRecord) (k : string) :
  k <> EmptyString -> includes k " " = false ->
  includes (fullMeta f) k = in_some_field f k.
Proof.
  intros Hne Hk. unfold fullMeta, in_some_field.
  rewrite !toLowerCase_append.
  change (toLowerCase " ") with " ".
  rewrite !(includes_joined _ _ _ Hne Hk). by rewrite !orb_assoc.
Qed.

Lemma keywords_plain (message : string) :
  Forall (fun k => k <> EmptyString /\ includes k " " = false)
    (keywords message).
Proof.
  unfold keywords. apply Forall_forall. intros k Hk.
  apply list_elem_of_In, filter_In in Hk as [Hin Hlen].
  split.
  - intros ->. by cbn in Hlen.
  - pose proof (split_tokens_without_separator " " (toLowerCase message)) as H.
    rewrite Forall_forall in H. apply H. by apply list_elem_of_In.
Qed.

Lemma len_concat (l : list string) : len (concat l) = total_length l.
Proof.
  induction l as [|s l IH]; [done |].
  rewrite concat_cons, len_append, IH. done.
Qed.

Lemma total_length_Permutation (l1 l2 : list string) :
  l1 ≡ₚ l2 -> total_length l1 = total_length l2.
Proof.
  unfold total_length.
  induction 1 as [|x l1 l2 _ IH|x y l|l1 l2 l3 _ IH1 _ IH2];
    cbn [fold_right]; lia.
Qed.

Lemma total_length_nonneg (l : list string) : 0 <= total_length l.
Proof.
  unfold total_length.
  induction l as [|s l IH]; cbn [fold_right]; [lia |].
  pose proof (len_nonneg s). lia.
Qed.

(** When everything fits, the loop never breaks. *)
Lemma packLoop_all (budget : Z) (items : list Scored) (cur : Z) (acc : string) :
  cur + total_length (map block items) < budget ->
  packLoop budget items cur acc
  = (cur + total_length (map block items), acc +:+ concat (map block items)).
Proof.
  revert cur acc. induction items as [|item rest IH]; intros cur acc Hfit.
  - cbn. rewrite append_empty_r. f_equal. lia.
  - cbn [packLoop map total_length fold_right] in *. fold (block item).
    fold (total_length (map block rest)) in *.
    pose proof (total_length_nonneg (map block rest)).
    destruct (Z.ltb_spec (cur + len (block item)) budget) as [_|Hfull]; [|lia].
    rewrite IH by lia. rewrite concat_cons, append_assoc. f_equal. lia.
Qed.

Lemma len_fileBlock (f : FileRecord) :
  len (fileBlock f)
  = 115 + shown_metadata f + Z.min 30000 (len (content f)).
Proof.
  unfold fileBlock, shown_metadata. rewrite !len_append, len_contentSnippet.
  unfold SNIPPET_CHARS. change (len LF) with 1.
  change (len "--- ARQUIVO: ") with 13. change (len " ---") with 4.
  change (len "METADADOS: Categoria: ") with 22.
  change (len ", Indicador: ") with 13. change (len ", Periodo: ") with 11.
  change (len ", Fonte: ") with 9. change (len ", Desc: ") with 8.
  change (len "CONTEUDO:") with 9. change (len " ") with 1.
  change (len "--- FIM ARQUIVO ---") with 19. lia.
Qed.

Lemma total_blocks_bounds (bound : Z) (items : list Scored) :
  Forall (fun item => len (block item) <= bound) items ->
  total_length (map block items) <= Z.of_nat (length items) * bound.
Proof.
  induction 1 as [|item items Hitem _ IH]; [cbn; lia |].
  cbn [map total_length fold_right length].
  fold (total_length (map block items)). lia.
Qed.

Lemma total_blocks_at_least (items : list Scored) :
  Z.of_nat (length items) * 115 <= total_length (map block items).
Proof.
  induction items as [|item items IH]; [cbn; lia |].
  cbn [map total_length fold_right length].
  fold (total_length (map block items)).
  unfold block at 1. rewrite len_fileBlock. unfold shown_metadata.
  pose proof (len_nonneg (name (file item))).
  pose proof (len_nonneg (category (file item))).
  pose proof (len_nonneg (caseName (file item))).
  pose proof (len_nonneg (period (file item))).
  pose proof (len_nonneg (source (file item))).
  pose proof (len_nonneg (description (file item))).
  pose proof (len_nonneg (content (file item))). lia.
Qed.

End FieldFacts.

Section FieldProperties.
Import JS Selector Fields.

Lemma sorted_files_Permutation (message : string) (files : list FileRecord) :
  map file (sortedFiles message files) ≡ₚ files.
Proof.
  unfold sortedFiles.
  change (fun a b : Scored => score b - score a) with (by_key_desc score).
  rewrite (Permutation_map file (Array_sort_Permutation score _)).
  by rewrite map_file_score_file.
Qed.

Lemma blocks_of_sorted (message : string) (files : list FileRecord) :
  map block (sortedFiles message files)
  = map fileBlock (map file (sortedFiles message files)).
Proof. by rewrite map_map. Qed.

(** X1. A keyword counts for a document exactly when it occurs in one of
    its four lowered fields (name, caseName, category, description): the
    score is 10 times the number of such keywords.  No keyword matches
    across the space between two fields, and the score lies between 0
    and 10 times the number of keywords. *)
Theorem score_matches_field_by_field (message : string) (f : FileRecord) :
  score_of (keywords message) f
  = 10 * Z.of_nat (length (List.filter (in_some_field f) (keywords message)))
  /\ 0 <= score_of (keywords message) f
     <= 10 * Z.of_nat (length (keywords message)).
Proof.
  assert (Hcount : score_of (keywords message) f
    = 10 * Z.of_nat (length (List.filter (in_some_field f) (keywords message)))).
  { rewrite score_of_count. do 3 f_equal. apply filter_ext_in.
    intros k Hk. pose proof (keywords_plain message) as Hplain.
    rewrite Forall_forall in Hplain.
    destruct (Hplain k (proj2 (list_elem_of_In _ _) Hk)) as [Hne Hsp].
    by apply fullMeta_fields. }
  split; [exact Hcount |]. rewrite Hcount.
  pose proof (filter_length_le (in_some_field f) (keywords message)). lia.
Qed.

(** X2. A collection whose blocks together stay under the budget is sent
    whole: the context is the blocks of all documents, in sorted order, and
    its length is the sum of the lengths of the blocks. *)
Theorem whole_collection_sent_when_it_fits (message : string) (files : list FileRecord) :
  total_length (map fileBlock files) < MAX_CONTEXT_CHARS ->
  selectedContext message files
  = concat (map fileBlock (map file (sortedFiles message files)))
  /\ map file (sortedFiles message files) ≡ₚ files
  /\ len (selectedContext message files) = total_length (map fileBlock files).
Proof.
  intros Hfit.
  assert (Htotal : total_length (map block (sortedFiles message files))
                   = total_length (map fileBlock files)).
  { rewrite blocks_of_sorted. apply total_length_Permutation.
    apply Permutation_map, sorted_files_Permutation. }
  assert (Hctx : selectedContext message files
                 = concat (map block (sortedFiles message files))).
  { unfold selectedContext. rewrite packLoop_all by (rewrite Htotal; lia).
    done. }
  refine (conj _ (conj (sorted_files_Permutation message files) _)).
  - by rewrite Hctx, blocks_of_sorted.
  - by rewrite Hctx, len_concat.
Qed.

(** The sample collection fits, and is sent whole. *)
Lemma whole_sample_collection_sent :
  total_length (map fileBlock Samples.collection) < MAX_CONTEXT_CHARS
  /\ len (selectedContext "populacao" Samples.collection)
     = total_length (map fileBlock Samples.collection).
Proof.
  assert (H : total_length (map fileBlock Samples.collection)
              < MAX_CONTEXT_CHARS) by reflexivity.
  split; [exact H |].
  exact (proj2 (proj2
           (whole_collection_sent_when_it_fits "populacao" Samples.collection H))).
Defined.

(** X3. A block is 115 code units of template, the six metadata fields
    it shows and at most 30,000 code units of content; so the context
    never holds more than 2,173 blocks. *)
Theorem context_holds_at_most_2173_blocks (message : string) (files : list FileRecord) :
  (forall f,
     len (fileBlock f)
     = 115 + shown_metadata f + Z.min 30000 (len (content f)))
  /\ exists k : nat,
       (k <= 2173)%nat /\ (k <= length files)%nat
       /\ selectedContext message files
          = concat (map fileBlock
                      (take k (map file (sortedFiles message files)))).
Proof.
  split; [apply len_fileBlock |].
  destruct (packLoop_prefix MAX_CONTEXT_CHARS (sortedFiles message files) 0
              EmptyString) as (k & Hk & Hrun & Hunder & _).
  exists k.
  assert (Hlen : length (sortedFiles message files) = length files).
  { rewrite <- (length_map file). apply Permutation_length.
    apply sorted_files_Permutation. }
  refine (conj _ (conj _ _)).
  - destruct k as [|k]; [lia |].
    specialize (Hunder (S k) ltac:(lia)).
    rewrite len_concat in Hunder.
    pose proof (total_blocks_at_least (take (S k) (sortedFiles message files)))
      as Hmin.
    rewrite length_take in Hmin. unfold MAX_CONTEXT_CHARS in Hunder. lia.
  - lia.
  - unfold selectedContext. rewrite Hrun. cbn [snd].
    by rewrite firstn_map, map_map.
Qed.

(** X4. When every document shows at most 1,000 code units of metadata,
    a block is at most 31,115 long and eight of them stay under the
    budget: the eight documents ranked first (all of them, when the
    collection has fewer) are always in the context. *)
Theorem first_eight_documents_always_fit (message : string) (files : list FileRecord) :
  Forall (fun f => shown_metadata f <= 1000) files ->
  exists k : nat,
    (Nat.min 8 (length files) <= k)%nat
    /\ selectedContext message files
       = concat (map fileBlock (take k (map file (sortedFiles message files)))).
Proof.
  intros Hmeta.
  destruct (packLoop_prefix MAX_CONTEXT_CHARS (sortedFiles message files) 0
              EmptyString) as (k & Hk & Hrun & _ & Hstop).
  exists k.
  assert (Hlen : length (sortedFiles message files) = length files).
  { rewrite <- (length_map file). apply Permutation_length.
    apply sorted_files_Permutation. }
  assert (Hbound : Forall (fun item => len (block item) <= 31115)
                     (sortedFiles message files)).
  { apply Forall_forall. intros item Hitem.
    assert (Hin : file item ∈ files).
    { rewrite <- (sorted_files_Permutation message files).
      apply list_elem_of_In, in_map, list_elem_of_In, Hitem. }
    rewrite Forall_forall in Hmeta. specialize (Hmeta _ Hin).
    unfold block. rewrite len_fileBlock. lia. }
  split.
  - destruct (sortedFiles message files !! k) as [item|] eqn:E.
    + specialize (Hstop item eq_refl). rewrite len_concat in Hstop.
      assert (Htake : Forall (fun item => len (block item) <= 31115)
                        (take k (sortedFiles message files)))
        by (by apply Forall_take).
      pose proof (total_blocks_bounds 31115 _ Htake) as Hsum.
      rewrite length_take in Hsum.
      rewrite Forall_forall in Hbound.
      pose proof (Hbound item (list_elem_of_lookup_2 _ _ _ E)) as Hitem.
      unfold MAX_CONTEXT_CHARS in Hstop. lia.
    + apply lookup_ge_None in E. lia.
  - unfold selectedContext. rewrite Hrun. cbn [snd].
    by rewrite firstn_map, map_map.
Qed.

(** The hypothesis of X4 holds of the sample collection, which is sent
    whole. *)
Lemma sample_collection_within_first_eight :
  Forall (fun f => shown_metadata f <= 1000) Samples.collection
  /\ exists k : nat,
       (3 <= k)%nat
       /\ selectedContext "populacao" Samples.collection
          = concat (map fileBlock
                      (take k (map file
                                 (sortedFiles "populacao" Samples.collection)))).
Proof.
  assert (H : Forall (fun f => shown_metadata f <= 1000) Samples.collection).
  { repeat constructor; by vm_compute. }
  split; [exact H |].
  exact (first_eight_documents_always_fit "populacao" Samples.collection H).
Defined.

End FieldProperties.

(** ** The routes as one server *)

Module App.
Import JS Server.

(** A request, with what the outside world supplies to it.  [GetOther] is
    a GET that no route above the [app.get('*')] handler and no static
    file answers: [index_html] is the content of [dist/index.html], when
    that file exists. *)
Inductive Request :=
| PostUpload (env : UploadEnv) (req : UploadRequest)
| GetFiles
| DeleteFile (unlink_ok : bool) (id_ : string)
| PostAsk (env : AskEnv) (req : AskRequest)
| GetOther (req_path : string) (index_html : option string).

(** [app.get('*', ...)] *)
Definition serve_frontend (req_path : string) (index_html : option string)
  : Response :=
  if startsWith req_path "/api" then
    json 404 (JObject [("error", JString "API endpoint not found")])
  else
    match index_html with
    | Some html => {| status := 200; headers := []; body := Send html |}
    | None =>
        {| status := 200; headers := [];
           body := Send ("Backend running. Frontend not built. Run "
                         +:+ "'npm run build' first.") |}
    end.

Definition handle (r : Request) (w : World) : World * Response :=
  match r with
  | PostUpload env req => upload env req w
  | GetFiles => list_files w
  | DeleteFile unlink_ok id_ => delete_file unlink_ok id_ w
  | PostAsk env req => ask env req w
  | GetOther req_path index_html => (w, serve_frontend req_path index_html)
  end.

(** Requests handled one after the other. *)
Fixpoint run (rs : list Request) (w : World) : World * list Response :=
  match rs with
  | [] => (w, [])
  | r :: rest =>
      let '(w1, response) := handle r w in
      let '(w2, responses) := run rest w1 in
      (w2, response :: responses)
  end.

Definition is_ask (r : Request) : bool :=
  match r with PostAsk _ _ => true | _ => false end.

Definition changes_store (r : Request) : bool :=
  match r with PostUpload _ _ | DeleteFile _ _ => true | _ => false end.

(** Every cached text is truthy. *)
Definition holds_answers (cache : gmap string (string * Z)) : Prop :=
  forall key value t, cache !! key = Some (value, t) -> truthy_string value = true.

(** Each upload of a file in [rs] draws an id that no record carries at
    that time. *)
Fixpoint uuids_fresh (rs : list Request) (w : World) : Prop :=
  match rs with
  | [] => True
  | r :: rest =>
      match r with
      | PostUpload env req =>
          req_file req = None
          \/ Forall (fun g => id g <> randomUUID env) (db_files w)
      | _ => True
      end
      /\ uuids_fresh rest (fst (handle r w))
  end.

(** Code units. *)
Fixpoint all_units (p : ascii -> bool) (s : string) : bool :=
  match s with
  | EmptyString => true
  | String c s' => p c && all_units p s'
  end.

Definition is_digit (c : ascii) : bool :=
  ((48 <=? N_of_ascii c) && (N_of_ascii c <=? 57))%N.

End App.

Section KeyFacts.
Import JS Server App.

Lemma pretty_N_char_digit (x : N) : is_digit (pretty_N_char x) = true.
Proof. unfold pretty_N_char. by repeat case_match. Qed.

Lemma pretty_N_go_digits (x : N) (s : string) :
  all_units is_digit s = true -> all_units is_digit (pretty_N_go x s) = true.
Proof.
  revert s. induction (N.lt_wf_0 x) as [x _ IH]; intros s Hs.
  assert (x = 0 \/ 0 < x)%N as [-> | Hpos] by lia.
  - by rewrite pretty_N_go_0.
  - rewrite pretty_N_go_step by done. apply IH; [by apply N.div_lt |].
    cbn [all_units]. by rewrite pretty_N_char_digit, Hs.
Qed.

(** The decimal numeral of a number is made of digits. *)
Lemma pretty_nat_digits (n : nat) : all_units is_digit (pretty n) = true.
Proof.
  unfold pretty, pretty_nat, pretty, pretty_N.
  case_decide; [done |]. by apply pretty_N_go_digits.
Qed.

Lemma digits_without_underscore (a b : string) :
  all_units is_digit (a +:+ "_" +:+ b) = false.
Proof.
  induction a as [|c a IH]; [done |].
  rewrite append_cons. cbn [all_units]. rewrite IH. apply andb_false_r.
Qed.

Lemma before_last_underscore (m1 m2 d1 d2 : string) :
  all_units is_digit d1 = true -> all_units is_digit d2 = true ->
  m1 +:+ "_" +:+ d1 = m2 +:+ "_" +:+ d2 -> m1 = m2 /\ d1 = d2.
Proof.
  intros Hd1 Hd2. revert m2.
  induction m1 as [|c m1 IH]; intros [|c' m2] Heq.
  - change (String "_" d1 = String "_" d2) in Heq. by injection Heq.
  - change (String "_" d1 = String c' (m2 +:+ "_" +:+ d2)) in Heq.
    injection Heq as _ ->. by rewrite digits_without_underscore in Hd1.
  - change (String c (m1 +:+ "_" +:+ d1) = String "_" d2) in Heq.
    injection Heq as _ <-. by rewrite digits_without_underscore in Hd2.
  - rewrite !append_cons in Heq. injection Heq as -> Heq.
    destruct (IH m2 Heq) as [-> ->]. done.
Qed.

End KeyFacts.

Section AppFacts.
Import JS Server App.

Lemma get_keeps_answers (now : Z) (key : string)
    (data : gmap string (string * Z)) :
  holds_answers data ->
  holds_answers (snd (NodeCache.get now key data))
  /\ (forall v, fst (NodeCache.get now key data) = Some v ->
                truthy_string v = true).
Proof.
  intros Hdata. unfold NodeCache.get.
  destruct (data !! key) as [[value t]|] eqn:E; [|by split].
  destruct (negb (t =? 0) && (t <? now)); cbn [fst snd]; split; try done.
  - intros k v t' Hk. apply lookup_delete_Some in Hk as [_ Hk].
    by eapply Hdata.
  - intros v [= <-]. by eapply Hdata.
Qed.

Lemma set_keeps_answers (now : Z) (key value : string)
    (data : gmap string (string * Z)) :
  holds_answers data -> truthy_string value = true ->
  holds_answers (NodeCache.set now key value data).
Proof.
  intros Hdata Hvalue k v t. unfold NodeCache.set.
  rewrite lookup_insert. case_decide.
  - by intros [= <- _].
  - by apply Hdata.
Qed.

Lemma empty_holds_answers : holds_answers ∅.
Proof. intros k v t. by rewrite lookup_empty. Qed.

Lemma ask_stream_keeps_answers (env : AskEnv) (req : AskRequest) (w : World)
    (cache1 : gmap string (string * Z)) :
  holds_answers cache1 ->
  holds_answers (appCache (fst (ask_stream env req w cache1))).
Proof.
  intros Hc. unfold ask_stream.
  destruct (failure _); [done |]. cbn [fst appCache with_cache].
  destruct (0 <? len _) eqn:Hlen; [|done].
  apply set_keeps_answers; [done | by rewrite truthy_string_len].
Qed.

Lemma ask_keeps_answers (env : AskEnv) (req : AskRequest) (w : World) :
  holds_answers (appCache w) ->
  holds_answers (appCache (fst (ask env req w))).
Proof.
  intros Hw. unfold ask. destruct (missing _); [done |].
  destruct (get_keeps_answers (ask_now env) (cacheKey req) _ Hw) as [Hc Hv].
  destruct (NodeCache.get _ _ _) as [[v|] cache1]; cbn [fst snd] in *.
  - destruct (truthy_string v); [done | by apply ask_stream_keeps_answers].
  - by apply ask_stream_keeps_answers.
Qed.

Lemma handle_keeps_answers (r : Request) (w : World) :
  holds_answers (appCache w) ->
  holds_answers (appCache (fst (handle r w))).
Proof.
  intros Hw. destruct r as [env req| |unlink_ok id_|env req|p html]; cbn [handle].
  - unfold upload. destruct (req_file req); [apply empty_holds_answers | done].
  - done.
  - unfold delete_file. destruct (findIndex _ _);
      [apply empty_holds_answers | done].
  - by apply ask_keeps_answers.
  - done.
Qed.

Lemma run_cons (r : Request) (rs : list Request) (w : World) :
  fst (run (r :: rs) w) = fst (run rs (fst (handle r w))).
Proof.
  cbn [run]. destruct (handle r w) as [w1 response]. cbn [fst].
  by destruct (run rs w1).
Qed.

Lemma ask_store (env : AskEnv) (req : AskRequest) (w : World) :
  db_files (fst (ask env req w)) = db_files w
  /\ db_writes (fst (ask env req w)) = db_writes w
  /\ disk (fst (ask env req w)) = disk w.
Proof.
  unfold ask, ask_stream. destruct (missing _); [done |].
  destruct (NodeCache.get _ _ _) as [[v|] cache1].
  - destruct (truthy_string v); [done |]. by destruct (failure _).
  - by destruct (failure _).
Qed.

Lemma ask_calls (env : AskEnv) (req : AskRequest) (w : World) :
  upstream_calls (fst (ask env req w)) = upstream_calls w
  \/ upstream_calls (fst (ask env req w))
     = upstream_calls w
       ++ [build_call req (Selector.selectedContext (message req) (db_files w))].
Proof.
  unfold ask. destruct (missing _); [by left |].
  destruct (NodeCache.get _ _ _) as [[v|] cache1].
  - destruct (truthy_string v); [by left | right; apply ask_stream_calls].
  - right. apply ask_stream_calls.
Qed.

Lemma other_routes_call_nothing (r : Request) (w : World) :
  is_ask r = false -> upstream_calls (fst (handle r w)) = upstream_calls w.
Proof.
  destruct r as [env req| |unlink_ok id_|env req|p html]; cbn [handle is_ask];
    try done; intros _.
  - unfold upload. by destruct (req_file req).
  - unfold delete_file. by destruct (findIndex _ _).
Qed.

Lemma findIndex_None_inv {A : Type} (p : A -> bool) (l : list A) :
  findIndex p l = None -> Forall (fun x => p x = false) l.
Proof.
  induction l as [|x l IH]; [done |].
  cbn [findIndex]. destruct (p x) eqn:Hx; [done |].
  destruct (findIndex p l); [done |]. intros _. by constructor; [|apply IH].
Qed.

Lemma findIndex_middle {A : Type} (p : A -> bool) (l1 l2 : list A) (x : A) :
  Forall (fun y => p y = false) l1 -> p x = true ->
  findIndex p (l1 ++ x :: l2) = Some (length l1).
Proof.
  intros Hl Hx. induction Hl as [|y l Hy _ IH]; cbn [findIndex app length].
  - by rewrite Hx.
  - by rewrite Hy, IH.
Qed.

Lemma splice1_middle {A : Type} (l1 l2 : list A) (x : A) :
  splice1 (length l1) (l1 ++ x :: l2) = l1 ++ l2.
Proof. induction l1 as [|y l1 IH]; [done |]. cbn. by rewrite IH. Qed.

Lemma filter_none {A : Type} (p : A -> bool) (l : list A) :
  Forall (fun x => p x = false) l -> List.filter (fun x => negb (p x)) l = l.
Proof.
  induction 1 as [|x l Hx _ IH]; [done |].
  cbn [List.filter]. by rewrite Hx, IH.
Qed.

(** Where a position has been found, the list splits there. *)
Lemma findIndex_split {A : Type} (p : A -> bool) (l : list A) (i : nat) :
  findIndex p l = Some i ->
  exists l1 x l2,
    l = l1 ++ x :: l2 /\ length l1 = i /\ p x = true
    /\ Forall (fun y => p y = false) l1.
Proof.
  revert i. induction l as [|y l IH]; intros i; [done |].
  cbn [findIndex]. destruct (p y) eqn:Hy.
  - intros [= <-]. by exists [], y, l.
  - destruct (findIndex p l) as [j|]; [|done]. intros [= <-].
    destruct (IH j eq_refl) as (l1 & x & l2 & -> & <- & Hx & Hl1).
    exists (y :: l1), x, l2. repeat split; try done. by constructor.
Qed.


End AppFacts.

Section AppProperties.
Import JS Server App.

(** X5. Two requests have the same cache key exactly when they have the
    same message and the same history length: the key is injective in
    that pair (an underscore in the message cannot be taken for the
    separator), and blind to what the history holds. *)
Theorem cache_key_is_the_pair (r1 r2 : AskRequest) :
  cacheKey r1 = cacheKey r2
  <-> message r1 = message r2 /\ length (history r1) = length (history r2).
Proof.
  unfold cacheKey. split.
  - intros Heq.
    change ("ask_" +:+ ?s) with (String "a" (String "s" (String "k" (String "_" s))))
      in Heq.
    injection Heq as Heq.
    apply before_last_underscore in Heq as [Hm Hd];
      [| apply pretty_nat_digits | apply pretty_nat_digits].
    split; [done |]. by apply (inj pretty).
  - by intros [-> ->].
Qed.

(** X6. The cache only ever holds truthy (nonempty) texts: whatever the
    requests, if it does before them it does after them.  On such a cache
    a lookup that finds a live entry is always answered by the replay, so
    the handler's path for a falsy cached value is never taken. *)
Theorem cache_holds_only_nonempty_answers (rs : list Request) (w : World) :
  holds_answers (appCache w) ->
  holds_answers (appCache (fst (run rs w)))
  /\ (forall env req v,
        missing (API_KEY env) = false ->
        fst (NodeCache.get (ask_now env) (cacheKey req) (appCache w)) = Some v ->
        ask env req w = (w, replay v)).
Proof.
  intros Hw. split.
  - revert w Hw. induction rs as [|r rs IH]; intros w Hw; [done |].
    rewrite run_cons. by apply IH, handle_keeps_answers.
  - intros env req v Hkey Hget.
    destruct (get_keeps_answers (ask_now env) (cacheKey req) _ Hw) as [_ Hv].
    apply ask_replay; [done | | by apply Hv].
    unfold NodeCache.get in *.
    destruct (appCache w !! cacheKey req) as [[value t]|]; [|done].
    destruct (negb (t =? 0) && (t <? ask_now env)); [done |].
    cbn [fst] in Hget. by injection Hget as ->.
Qed.

(** The empty cache of the sample world holds only answers; so does the
    cache after the sample question. *)
Lemma sample_cache_holds_answers :
  holds_answers (appCache Samples.world)
  /\ holds_answers
       (appCache (fst (run [PostAsk (Samples.answering 1000) Samples.question]
                         Samples.world))).
Proof.
  split; [apply empty_holds_answers |].
  exact (proj1 (cache_holds_only_nonempty_answers
                  [PostAsk (Samples.answering 1000) Samples.question]
                  Samples.world empty_holds_answers)).
Defined.

(** X7. Only [/api/ask] calls the model, and at most once per request:
    after any requests the log of calls is the old log followed by at
    most one call for each ask among them. *)
Theorem model_is_called_by_ask_only (rs : list Request) (w : World) :
  exists calls,
    upstream_calls (fst (run rs w)) = upstream_calls w ++ calls
    /\ (length calls <= length (List.filter is_ask rs))%nat.
Proof.
  revert w. induction rs as [|r rs IH]; intros w.
  - exists []. by rewrite app_nil_r.
  - rewrite run_cons. destruct (IH (fst (handle r w))) as (calls & -> & Hn).
    cbn [List.filter]. destruct (is_ask r) eqn:Hr.
    + destruct r as [| | |env req|]; try done. cbn [handle].
      destruct (ask_calls env req w) as [-> | ->].
      * exists calls. cbn [length]. split; [done | lia].
      * eexists (_ :: calls). rewrite <- app_assoc. cbn [length].
        split; [done | lia].
    + rewrite (other_routes_call_nothing r w Hr). by exists calls.
Qed.

(** X8. Only an upload and a delete touch the store: requests that are
    neither leave the collection, the count of database writes and the
    files on disk as they were. *)
Theorem store_changes_by_upload_and_delete_only (rs : list Request) (w : World) :
  Forall (fun r => changes_store r = false) rs ->
  db_files (fst (run rs w)) = db_files w
  /\ db_writes (fst (run rs w)) = db_writes w
  /\ disk (fst (run rs w)) = disk w.
Proof.
  intros Hrs. revert w. induction Hrs as [|r rs Hr _ IH]; intros w; [done |].
  rewrite run_cons. destruct (IH (fst (handle r w))) as (-> & -> & ->).
  destruct r as [| | |env req|]; try done. cbn [handle]. apply ask_store.
Qed.

(** Two asks and a listing do not touch the sample store. *)
Lemma sample_reads_touch_nothing :
  Forall (fun r => changes_store r = false)
    [PostAsk (Samples.answering 1000) Samples.question; GetFiles;
     PostAsk (Samples.failing 2000) Samples.question]
  /\ db_files
       (fst (run [PostAsk (Samples.answering 1000) Samples.question; GetFiles;
                  PostAsk (Samples.failing 2000) Samples.question]
               Samples.world))
     = db_files Samples.world.
Proof.
  assert (H : Forall (fun r => changes_store r = false)
                [PostAsk (Samples.answering 1000) Samples.question; GetFiles;
                 PostAsk (Samples.failing 2000) Samples.question]).
  { by repeat constructor. }
  split; [exact H |].
  exact (proj1 (store_changes_by_upload_and_delete_only _ Samples.world H)).
Defined.

(** X9. An answer is replayed for an hour and no longer: when an
    identical request comes later than an hour after the call that was
    cached completed, the entry is deleted by the lookup and the request is
    streamed from the model, which is called again. *)
Theorem expired_answer_is_fetched_again (env1 env2 : AskEnv) (req : AskRequest) (w : World) :
  let call :=
    build_call req (Selector.selectedContext (message req) (db_files w)) in
  let reply := generateContentStream env1 call in
  let fullText := concat (List.filter truthy_string (chunks reply)) in
  let w1 := fst (ask env1 req w) in
  missing (API_KEY env1) = false ->
  missing (API_KEY env2) = false ->
  fst (NodeCache.get (ask_now env1) (cacheKey req) (appCache w)) = None ->
  failure reply = None ->
  truthy_string fullText = true ->
  0 <= ask_now env1 + duration reply ->
  ask_now env1 + duration reply + 3600000 < ask_now env2 ->
  ask env2 req w1
  = ask_stream env2 req w1 (delete (cacheKey req) (appCache w1))
  /\ upstream_calls (fst (ask env2 req w1)) = upstream_calls w ++ [call; call].
Proof.
  intros call reply fullText w1 Hk1 Hk2 Hcold Hok Htext Hclock Hlate.
  assert (Hfirst : ask env1 req w
                   = ask_stream env1 req w
                       (snd (NodeCache.get (ask_now env1) (cacheKey req)
                               (appCache w)))).
  { apply ask_miss; [done |]. intros v. by rewrite Hcold. }
  assert (Hentry : appCache w1 !! cacheKey req
                   = Some (fullText, ask_now env1 + duration reply + 3600000)).
  { subst w1. rewrite Hfirst. unfold ask_stream. fold call. fold reply.
    rewrite Hok. fold fullText.
    rewrite truthy_string_len in Htext. rewrite Htext.
    cbn [fst appCache with_cache]. unfold NodeCache.set, NodeCache.stdTTL.
    rewrite lookup_insert_eq. do 2 f_equal. }
  assert (Hget : NodeCache.get (ask_now env2) (cacheKey req) (appCache w1)
                 = (None, delete (cacheKey req) (appCache w1))).
  { unfold NodeCache.get. rewrite Hentry.
    destruct (Z.eqb_spec (ask_now env1 + duration reply + 3600000) 0); [lia |].
    destruct (Z.ltb_spec (ask_now env1 + duration reply + 3600000)
                (ask_now env2)); [done | lia]. }
  assert (Hsecond : ask env2 req w1
                    = ask_stream env2 req w1
                        (delete (cacheKey req) (appCache w1))).
  { unfold ask. by rewrite Hk2, Hget. }
  split; [exact Hsecond |].
  rewrite Hsecond, ask_stream_calls.
  destruct (ask_store env1 req w) as [Hfiles _]. fold w1 in Hfiles.
  rewrite Hfiles. fold call. subst w1. rewrite Hfirst, ask_stream_calls.
  fold call. by rewrite <- app_assoc.
Qed.

(** The hypotheses of X9 hold of the sample question asked again two
    hours later. *)
Lemma sample_question_expires :
  (ask_now (Samples.answering 1000) + 800 + 3600000
   < ask_now (Samples.answering 7200000))
  /\ length (upstream_calls
               (fst (ask (Samples.answering 7200000) Samples.question
                       (fst (ask (Samples.answering 1000) Samples.question
                               Samples.world))))) = 2%nat.
Proof.
  split; [reflexivity |].
  rewrite (proj2 (expired_answer_is_fetched_again (Samples.answering 1000)
                    (Samples.answering 7200000) Samples.question Samples.world
                    eq_refl eq_refl eq_refl eq_refl eq_refl
                    ltac:(discriminate) eq_refl)).
  reflexivity.
Defined.

End AppProperties.

Section DeleteProperties.
Import JS Server App.

Lemma delete_file_at (unlink_ok : bool) (l1 l2 : list FileRecord)
    (g : FileRecord) (w : World) :
  db_files w = l1 ++ g :: l2 ->
  Forall (fun h => id h <> id g) l1 ->
  delete_file unlink_ok (id g) w
  = ({| db_files := l1 ++ l2; db_writes := S (db_writes w);
        disk := if decide (path g ∈ disk w)
                then if unlink_ok then disk w ∖ {[path g]} else disk w
                else disk w;
        appCache := ∅; upstream_calls := upstream_calls w |}, SUCCESS).
Proof.
  intros Hfiles Hfirst. unfold delete_file. rewrite Hfiles.
  rewrite (findIndex_middle _ l1 l2 g (id_differs _ _ Hfirst)
             (String.eqb_refl _)).
  rewrite list_lookup_middle by done. by rewrite splice1_middle.
Qed.

(** X10. A delete of an id that a record carries removes the first such
    record and no other: the records before and after it keep their
    order, the database is written once, the cache is flushed, the model
    is not called and the answer is [{success: true}].  The file on disk
    goes only when [unlinkSync] succeeds; when it fails the record is
    removed all the same. *)
Theorem delete_removes_the_first_record_with_the_id (unlink_ok : bool) (before after : list FileRecord) (g : FileRecord) (w : World) :
  db_files w = before ++ g :: after ->
  Forall (fun h => id h <> id g) before ->
  let w' := fst (delete_file unlink_ok (id g) w) in
  db_files w' = before ++ after
  /\ db_writes w' = S (db_writes w)
  /\ appCache w' = ∅
  /\ upstream_calls w' = upstream_calls w
  /\ disk w' = (if unlink_ok then disk w ∖ {[path g]} else disk w)
  /\ snd (delete_file unlink_ok (id g) w) = SUCCESS.
Proof.
  intros Hfiles Hfirst w'. subst w'.
  rewrite (delete_file_at unlink_ok before after g w Hfiles Hfirst).
  cbn [fst snd db_files db_writes appCache upstream_calls disk].
  refine (conj eq_refl (conj eq_refl (conj eq_refl (conj eq_refl (conj _ eq_refl))))).
  destruct (decide (path g ∈ disk w)) as [Hin | Hout]; [done |].
  destruct unlink_ok; [| done].
  apply set_eq. intros p. rewrite elem_of_difference, elem_of_singleton.
  split; [| by intros [Hp _]]. intros Hp. split; [done |]. by intros ->.
Qed.

(** In the sample world the second record is deleted; its file is not on
    disk, and the other two records stay in order. *)
Lemma sample_delete_of_second_record :
  (db_files Samples.world = [Samples.pop] ++ Samples.pib :: [Samples.saude]
   /\ Forall (fun h => id h <> id Samples.pib) [Samples.pop])
  /\ db_files (fst (delete_file false (id Samples.pib) Samples.world))
     = [Samples.pop; Samples.saude].
Proof.
  assert (H : Forall (fun h => id h <> id Samples.pib) [Samples.pop]).
  { repeat constructor. discriminate. }
  split; [by split |].
  exact (proj1 (delete_removes_the_first_record_with_the_id false
                  [Samples.pop] [Samples.saude] Samples.pib Samples.world
                  eq_refl H)).
Defined.

Lemma splice1_ids_NoDup (i : nat) (l : list FileRecord) :
  NoDup (map id l) -> NoDup (map id (splice1 i l)).
Proof.
  revert i. induction l as [|g l IH]; intros i Hl;
    [destruct i; apply NoDup_nil_2 |].
  cbn [map] in Hl. apply NoDup_cons in Hl as [Hg Hl].
  destruct i as [|i]; [exact Hl |]. cbn [splice1 map]. apply NoDup_cons.
  split; [| by apply IH].
  intros Hin. apply Hg. clear IH Hg Hl. revert i Hin.
  induction l as [|h l IHl]; intros i Hin;
    [destruct i; by apply elem_of_nil in Hin |].
  destruct i as [|i]; cbn [splice1 map] in *.
  - by apply list_elem_of_further.
  - apply elem_of_cons in Hin as [-> | Hin];
      [apply list_elem_of_here | by eapply list_elem_of_further, IHl].
Qed.

Lemma handle_ids_NoDup (r : Request) (w : World) :
  NoDup (map id (db_files w)) -> uuids_fresh [r] w ->
  NoDup (map id (db_files (fst (handle r w)))).
Proof.
  intros Hw [Hfresh _].
  destruct r as [env req| |unlink_ok id_|env req|p html]; cbn [handle]; try done.
  - unfold upload. destruct (req_file req) as [f|]; [|done].
    destruct Hfresh as [Hnone | Hfresh]; [done |].
    cbn [fst db_files with_cache writeDb stored].
    rewrite map_app. apply NoDup_app. split; [done |].
    split; [| apply NoDup_singleton].
    intros i Hi [= ->]%list_elem_of_singleton.
    apply list_elem_of_In, in_map_iff in Hi as (g & Hg & Hin).
    rewrite Forall_forall in Hfresh.
    by apply (Hfresh g (proj2 (list_elem_of_In _ _) Hin)).
  - unfold delete_file. destruct (findIndex _ _) as [i|]; [|done].
    cbn [fst db_files with_cache writeDb]. by apply splice1_ids_NoDup.
  - by rewrite (proj1 (ask_store env req w)).
Qed.

Lemma delete_file_files (unlink_ok : bool) (id_ : string) (w : World) :
  NoDup (map id (db_files w)) ->
  db_files (fst (delete_file unlink_ok id_ w))
  = List.filter (fun g => negb (String.eqb (id g) id_)) (db_files w).
Proof.
  intros Hw. unfold delete_file.
  destruct (findIndex _ _) as [i|] eqn:E.
  - cbn [fst db_files with_cache writeDb].
    apply findIndex_split in E as (l1 & g & l2 & Hfiles & <- & Hg & Hl1).
    rewrite Hfiles, splice1_middle, List.filter_app. cbn [List.filter].
    rewrite Hg. cbn [negb]. rewrite (filter_none _ l1 Hl1). f_equal.
    symmetry. apply filter_none. apply Forall_forall. intros h Hh.
    apply String.eqb_neq. intros Hid. apply String.eqb_eq in Hg.
    rewrite Hfiles, map_app in Hw. apply NoDup_app in Hw as (_ & _ & Hw).
    cbn [map] in Hw. apply NoDup_cons in Hw as [Hw _]. apply Hw.
    rewrite Hg, <- Hid. apply list_elem_of_In, in_map, list_elem_of_In, Hh.
  - cbn [fst]. symmetry. by apply filter_none, findIndex_None_inv.
Qed.

(** X11. Ids stay unique: if no two records share an id, and each upload
    draws an id that no record carries at that time, then no two records
    share an id after any requests.  On such a collection a delete
    removes every record that carries the id: the collection becomes the
    records with another id, in their order. *)
Theorem ids_stay_unique (rs : list Request) (w : World) :
  NoDup (map id (db_files w)) ->
  uuids_fresh rs w ->
  NoDup (map id (db_files (fst (run rs w))))
  /\ (forall unlink_ok id_,
        db_files (fst (delete_file unlink_ok id_ w))
        = List.filter (fun g => negb (String.eqb (id g) id_)) (db_files w)
        /\ Forall (fun g => id g <> id_)
             (db_files (fst (delete_file unlink_ok id_ w)))).
Proof.
  intros Hw Hfresh. split.
  - revert w Hw Hfresh. induction rs as [|r rs IH]; intros w Hw Hfresh; [done |].
    destruct Hfresh as [Hr Hrest]. rewrite run_cons.
    apply IH; [| done]. by apply handle_ids_NoDup.
  - intros unlink_ok id_. rewrite (delete_file_files _ _ _ Hw). split; [done |].
    apply Forall_forall. intros g Hg.
    apply list_elem_of_In, filter_In in Hg as [_ Hg].
    apply String.eqb_neq. by destruct (String.eqb (id g) id_).
Qed.

(** The sample world has unique ids, and keeps them through an upload
    with a fresh id and a delete. *)
Lemma sample_ids_stay_unique :
  NoDup (map id (db_files Samples.world))
  /\ NoDup (map id (db_files
       (fst (run [PostUpload Samples.upload_env
                    {| req_file := Some Samples.csv_upload;
                       req_metadata := Samples.some_metadata |};
                  DeleteFile true "id-2"]
               Samples.world)))).
Proof.
  assert (H : NoDup (map id (db_files Samples.world))).
  { apply NoDup_ListNoDup. repeat constructor; cbn; intuition discriminate. }
  split; [exact H |].
  refine (proj1 (ids_stay_unique _ Samples.world H _)).
  cbn. repeat split; try done. right. repeat constructor; discriminate.
Defined.


End DeleteProperties.

(** ** multer's disk storage: the name of the stored file *)

Module Multer.
Import JS.

(** A code unit that [/[^a-zA-Z0-9.-]/] does not match. *)
Definition kept (c : ascii) : bool :=
  let n := N_of_ascii c in
  (((97 <=? n) && (n <=? 122)) || ((65 <=? n) && (n <=? 90))
   || ((48 <=? n) && (n <=? 57)) || (n =? 46) || (n =? 45))%N.

(** [file.originalname.replace(/[^a-zA-Z0-9.-]/g, '_')] *)
Fixpoint safeName (originalname : string) : string :=
  match originalname with
  | EmptyString => EmptyString
  | String c s => String (if kept c then c else "_"%char) (safeName s)
  end.

(** [`${Date.now()}-${safeName}`] *)
Definition filename (now : Z) (originalname : string) : string :=
  pretty now +:+ "-" +:+ safeName originalname.

(** The code units a stored name is made of. *)
Definition plain (c : ascii) : bool := kept c || Ascii.eqb c "_".

End Multer.

Section MulterFacts.
Import JS App Multer.

Lemma safeName_length (s : string) :
  String.length (safeName s) = String.length s.
Proof. induction s as [|c s IH]; [done |]. cbn. by rewrite IH. Qed.

Lemma safeName_plain (s : string) : all_units plain (safeName s) = true.
Proof.
  induction s as [|c s IH]; [done |].
  cbn [safeName all_units]. rewrite IH, andb_true_r. unfold plain.
  destruct (kept c) eqn:Hc; [by rewrite Hc | done].
Qed.

Lemma safeName_kept (s : string) :
  all_units kept s = true -> safeName s = s.
Proof.
  induction s as [|c s IH]; [done |].
  cbn [all_units safeName]. intros [Hc Hs]%andb_true_iff.
  by rewrite Hc, (IH Hs).
Qed.

Lemma kept_underscore_fixed (c : ascii) :
  (if kept (if kept c then c else "_"%char)
   then (if kept c then c else "_"%char) else "_"%char)
  = (if kept c then c else "_"%char).
Proof. destruct (kept c) eqn:Hc; [by rewrite Hc | done]. Qed.

Lemma all_units_append (p : ascii -> bool) (a b : string) :
  all_units p (a +:+ b) = all_units p a && all_units p b.
Proof.
  induction a as [|c a IH]; [done |].
  rewrite append_cons. cbn [all_units]. by rewrite IH, andb_assoc.
Qed.

Lemma all_units_impl (p q : ascii -> bool) (s : string) :
  (forall c, p c = true -> q c = true) ->
  all_units p s = true -> all_units q s = true.
Proof.
  intros Hpq. induction s as [|c s IH]; [done |].
  cbn [all_units]. intros [Hc Hs]%andb_true_iff. by rewrite (Hpq c Hc), IH.
Qed.

Lemma digit_plain (c : ascii) : is_digit c = true -> plain c = true.
Proof. by destruct c as [[] [] [] [] [] [] [] []]. Qed.

Lemma pretty_positive_digits (p : positive) :
  all_units is_digit (pretty p) = true.
Proof.
  unfold pretty, pretty_positive, pretty, pretty_N.
  case_decide; [done |]. by apply pretty_N_go_digits.
Qed.

Lemma pretty_Z_plain (z : Z) : all_units plain (pretty z) = true.
Proof.
  destruct z as [|p|p]; [done | |].
  - apply (all_units_impl is_digit); [apply digit_plain |].
    apply pretty_positive_digits.
  - change (pretty (Z.neg p)) with ("-" +:+ pretty p).
    rewrite all_units_append. cbn [all_units andb].
    change (plain "-") with true. cbn [andb].
    apply (all_units_impl is_digit); [apply digit_plain |].
    apply pretty_positive_digits.
Qed.

Lemma pretty_Z_digits (z : Z) : 0 <= z -> all_units is_digit (pretty z) = true.
Proof.
  destruct z as [|p|p]; [done | | lia]. intros _. apply pretty_positive_digits.
Qed.

Lemma digits_without_dash (a b : string) :
  all_units is_digit a = true -> all_units is_digit b = true ->
  forall s t, a +:+ "-" +:+ s = b +:+ "-" +:+ t -> a = b /\ s = t.
Proof.
  revert b. induction a as [|c a IH]; intros [|c' b] Ha Hb s t Heq.
  - change (String "-" s = String "-" t) in Heq. by injection Heq.
  - change (String "-" s = String c' (b +:+ "-" +:+ t)) in Heq.
    injection Heq as <- _. by cbn in Hb.
  - change (String c (a +:+ "-" +:+ s) = String "-" t) in Heq.
    injection Heq as -> _. by cbn in Ha.
  - rewrite !append_cons in Heq. injection Heq as -> Heq.
    cbn [all_units] in Ha, Hb.
    apply andb_true_iff in Ha as [_ Ha]. apply andb_true_iff in Hb as [_ Hb].
    destruct (IH b Ha Hb s t Heq) as [-> ->]. done.
Qed.

(** X13. The name multer stores a file under has the code units of the
    original name, each one outside [a-zA-Z0-9.-] replaced by an
    underscore: the same length, made of those units and underscores only
    (so no slash and no space), unchanged when the original name is already
    of that kind, and stable under a second replacement.  The whole stored
    name, time stamp in front, is of that kind too, and two stored names
    are equal only for the same time stamp and the same replaced name. *)
Theorem stored_name_is_plain (now : Z) (originalname : string) :
  len (safeName originalname) = len originalname
  /\ all_units plain (safeName originalname) = true
  /\ all_units plain (filename now originalname) = true
  /\ includes (filename now originalname) "/" = false
  /\ safeName (safeName originalname) = safeName originalname
  /\ (all_units kept originalname = true -> safeName originalname = originalname)
  /\ (forall now' originalname',
        0 <= now -> 0 <= now' ->
        filename now originalname = filename now' originalname' ->
        now = now' /\ safeName originalname = safeName originalname').
Proof.
  assert (Hplain : all_units plain (filename now originalname) = true).
  { unfold filename. rewrite !all_units_append, pretty_Z_plain, safeName_plain.
    done. }
  refine (conj _ (conj (safeName_plain _) (conj Hplain (conj _ (conj _
           (conj (safeName_kept _) _)))))).
  - unfold len. by rewrite safeName_length.
  - revert Hplain. generalize (filename now originalname). intros s.
    induction s as [|c s IH]; [done |].
    cbn [all_units]. intros [Hc Hs]%andb_true_iff.
    rewrite includes_unit_cons, (IH Hs), orb_false_r.
    by destruct c as [[] [] [] [] [] [] [] []].
  - clear Hplain. induction originalname as [|c s IH]; [done |].
    cbn [safeName]. rewrite IH. f_equal. apply kept_underscore_fixed.
  - intros now' originalname' Hnow Hnow' Heq. unfold filename in Heq.
    apply digits_without_dash in Heq as [Hp Hs];
      [| by apply pretty_Z_digits | by apply pretty_Z_digits].
    split; [by apply (inj pretty) | done].
Qed.

End MulterFacts.

(** ** The client: [streamResponse] as a whole, and [DatabaseService] *)

Module StreamResponse.
Import JS.

(** The fields of a [Message] that the client and the server read; an
    absent [isLoading] is [false]. *)
Record ChatMessage := { role : string; text : string; isLoading : bool }.

(** [history.filter(m => m.role !== 'model' || !m.isLoading)] *)
Definition sent_history (history : list ChatMessage) : list ChatMessage :=
  List.filter
    (fun m => negb (String.eqb (role m) "model") || negb (isLoading m))
    history.

(** The body of the POST, as the server reads it. *)
Definition request (history : list ChatMessage) (userPrompt : string)
  : Server.AskRequest :=
  {| Server.message := userPrompt;
     Server.history :=
       map (fun m => {| Server.role := role m; Server.text := text m |})
         (sent_history history) |}.

(** What [fetch] and the reader yield: a rejected promise, a response
    without body, or the decoded chunks read before the stream is done
    or, when [broken], before [reader.read()] throws. *)
Inductive Fetched :=
| Rejected
| NoBody
| Body (chunks : list string) (broken : bool).

Definition CONNECTION_ERROR : string :=
  Server.lit "Erro de conexão com o servidor.".

(** The chunks handed to [onChunk], in order, and the value returned. *)
Definition streamResponse (JSON_parse : string -> option JSON)
    (fetched : Fetched) : list string * Client.Answer :=
  match fetched with
  | Rejected | NoBody => ([], Client.plain CONNECTION_ERROR)
  | Body chunks broken =>
      (chunks,
       if broken then Client.plain CONNECTION_ERROR
       else Client.extractChart JSON_parse (concat chunks))
  end.

(** The network delivers the writes of a streamed response as chunks
    with the same concatenation, cut where it likes. *)
Definition delivers (response : Server.Response) (chunks : list string)
  : Prop :=
  match Server.body response with
  | Server.Stream writes => concat chunks = concat writes
  | _ => False
  end.

End StreamResponse.

Module DatabaseService.
Import JS Server.

Inductive Fetched :=
| Rejected
| Resolved (response : Response).

(** [response.ok] *)
Definition ok (response : Response) : bool :=
  (200 <=? status response) && (status response <=? 299).

Section Parsing.
Variable JSON_parse : string -> option JSON.




End Parsing.


End DatabaseService.

Section ClientFacts.
Import JS Server Client StreamResponse.

Lemma includes_unit_append (a b : string) (c : ascii) :
  includes (a +:+ b) (String c EmptyString)
  = includes a (String c EmptyString) || includes b (String c EmptyString).
Proof.
  induction a as [|x a IH]; [done |].
  by rewrite append_cons, !includes_unit_cons, IH, orb_assoc.
Qed.

Lemma concat_snoc (l : list string) (s : string) :
  concat (l ++ [s]) = concat l +:+ s.
Proof. rewrite concat_app. cbn. by rewrite append_empty_r. Qed.


(** A first request that is streamed and cached, then a second one with
    the same key within the hour. *)
Lemma ask_then_replay (env1 env2 : AskEnv) (req1 req2 : AskRequest) (w : World) :
  let call :=
    build_call req1 (Selector.selectedContext (message req1) (db_files w)) in
  let reply := generateContentStream env1 call in
  let written := List.filter truthy_string (chunks reply) in
  missing (API_KEY env1) = false ->
  missing (API_KEY env2) = false ->
  fst (NodeCache.get (ask_now env1) (cacheKey req1) (appCache w)) = None ->
  failure reply = None ->
  truthy_string (concat written) = true ->
  cacheKey req2 = cacheKey req1 ->
  ask_now env2 <= ask_now env1 + duration reply + 3600000 ->
  body (snd (ask env1 req1 w)) = Stream written
  /\ snd (ask env2 req2 (fst (ask env1 req1 w))) = replay (concat written).
Proof.
  intros call reply written Hk1 Hk2 Hcold Hok Htext Hkey Hnow.
  assert (Hfirst : ask env1 req1 w
                   = ask_stream env1 req1 w
                       (snd (NodeCache.get (ask_now env1) (cacheKey req1)
                               (appCache w)))).
  { apply ask_miss; [done |]. intros v. by rewrite Hcold. }
  rewrite Hfirst. unfold ask_stream at 1 2. fold call. fold reply.
  rewrite Hok. fold written. split; [done |].
  rewrite truthy_string_len in Htext. rewrite Htext.
  cbn [fst].
  rewrite (ask_replay env2 req2 _ (concat written)); [done | done | | ].
  - cbn [appCache with_cache]. rewrite Hkey. apply get_after_set. lia.
  - by rewrite truthy_string_len.
Qed.

End ClientFacts.

Section ClientProperties.
Import JS Server Client StreamResponse.


(** X15. A replayed answer renders like the original: when a request is
    streamed from the model and cached, and a request with the same key
    is served from the cache within the hour, the client computes the same
    text and the same chart from the two responses, however the network
    cuts either of them. *)
Theorem replayed_answer_renders_like_the_original (JSON_parse : string -> option JSON) (env1 env2 : AskEnv) (req1 req2 : AskRequest) (w : World) (chunks1 chunks2 : list string) :
  let call :=
    build_call req1 (Selector.selectedContext (message req1) (db_files w)) in
  let reply := generateContentStream env1 call in
  let written := List.filter truthy_string (chunks reply) in
  missing (API_KEY env1) = false ->
  missing (API_KEY env2) = false ->
  fst (NodeCache.get (ask_now env1) (cacheKey req1) (appCache w)) = None ->
  failure reply = None ->
  truthy_string (concat written) = true ->
  cacheKey req2 = cacheKey req1 ->
  ask_now env2 <= ask_now env1 + duration reply + 3600000 ->
  delivers (snd (ask env1 req1 w)) chunks1 ->
  delivers (snd (ask env2 req2 (fst (ask env1 req1 w)))) chunks2 ->
  snd (streamResponse JSON_parse (Body chunks1 false))
  = snd (streamResponse JSON_parse (Body chunks2 false))
  /\ snd (streamResponse JSON_parse (Body chunks2 false))
     = extractChart JSON_parse (concat written).
Proof.
  intros call reply written Hk1 Hk2 Hcold Hok Htext Hkey Hnow Hd1 Hd2.
  destruct (ask_then_replay env1 env2 req1 req2 w Hk1 Hk2 Hcold Hok Htext
              Hkey Hnow) as [Hbody Hreplay].
  unfold delivers in Hd1, Hd2. rewrite Hbody in Hd1. rewrite Hreplay in Hd2.
  cbn [body replay] in Hd2. cbn [concat fold_right] in Hd2.
  rewrite append_empty_r in Hd2. fold (concat written) in Hd2.
  cbn [streamResponse snd]. by rewrite Hd1, Hd2.
Qed.

(** The hypotheses of X15 hold of the sample question, asked again half
    an hour later, whose answer arrives in one piece the first time and in
    two the second. *)
Lemma sample_replay_renders_alike :
  (delivers (snd (ask (Samples.answering 1000) Samples.question Samples.world))
     ["Sao 32 mil."]
   /\ delivers
        (snd (ask (Samples.answering 1800000) Samples.question
                (fst (ask (Samples.answering 1000) Samples.question
                        Samples.world))))
        ["Sao 32"; " mil."])
  /\ snd (streamResponse JsonFragment.JSON_parse (Body ["Sao 32 mil."] false))
     = snd (streamResponse JsonFragment.JSON_parse
              (Body ["Sao 32"; " mil."] false)).
Proof.
  assert (H1 : delivers
                 (snd (ask (Samples.answering 1000) Samples.question
                         Samples.world)) ["Sao 32 mil."]) by reflexivity.
  assert (H2 : delivers
                 (snd (ask (Samples.answering 1800000) Samples.question
                         (fst (ask (Samples.answering 1000) Samples.question
                                 Samples.world))))
                 ["Sao 32"; " mil."]) by reflexivity.
  split; [by split |].
  exact (proj1 (replayed_answer_renders_like_the_original
                  JsonFragment.JSON_parse (Samples.answering 1000)
                  (Samples.answering 1800000) Samples.question Samples.question
                  Samples.world ["Sao 32 mil."] ["Sao 32"; " mil."]
                  eq_refl eq_refl eq_refl eq_refl eq_refl eq_refl
                  ltac:(discriminate) H1 H2)).
Defined.

(** X16. A failure of the model reaches the user as text: when the call
    of the model fails and what was written before holds no closing brace,
    the client shows the text written so far followed by the notice, and
    no chart, whatever [JSON.parse] does. *)
Theorem upstream_failure_is_shown_as_text (JSON_parse : string -> option JSON) (env : AskEnv) (req : AskRequest) (w : World) (error : UpstreamError) (chunks : list string) :
  let call :=
    build_call req (Selector.selectedContext (message req) (db_files w)) in
  let reply := generateContentStream env call in
  let written := List.filter truthy_string (Server.chunks reply) in
  missing (API_KEY env) = false ->
  fst (NodeCache.get (ask_now env) (cacheKey req) (appCache w)) = None ->
  failure reply = Some error ->
  includes (concat written) "}" = false ->
  delivers (snd (ask env req w)) chunks ->
  snd (streamResponse JSON_parse (Body chunks false))
  = plain (concat written +:+ notice error).
Proof.
  intros call reply written Hkey Hcold Hfail Hbrace Hd.
  assert (Hask : ask env req w
                 = ask_stream env req w
                     (snd (NodeCache.get (ask_now env) (cacheKey req)
                             (appCache w)))).
  { apply ask_miss; [done |]. intros v. by rewrite Hcold. }
  unfold delivers in Hd. rewrite Hask in Hd. unfold ask_stream in Hd.
  fold call in Hd. fold reply in Hd. rewrite Hfail in Hd.
  cbn [snd body] in Hd. fold written in Hd. rewrite concat_snoc in Hd.
  cbn [streamResponse snd]. rewrite Hd. unfold extractChart.
  rewrite no_close_no_match; [done |].
  rewrite includes_unit_append, Hbrace. cbn [orb].
  unfold notice. by destruct (rate_limited error).
Qed.

(** The hypotheses of X16 hold of the sample question when the model
    fails with a quota error after one chunk. *)
Lemma sample_failure_shown_as_text :
  delivers (snd (ask (Samples.failing 1000) Samples.question Samples.world))
    ["Sao " +:+ QUOTA_NOTICE]
  /\ snd (streamResponse JsonFragment.JSON_parse
            (Body ["Sao " +:+ QUOTA_NOTICE] false))
     = plain ("Sao " +:+ QUOTA_NOTICE).
Proof.
  assert (H : delivers
                (snd (ask (Samples.failing 1000) Samples.question Samples.world))
                ["Sao " +:+ QUOTA_NOTICE]) by reflexivity.
  split; [exact H |].
  exact (upstream_failure_is_shown_as_text JsonFragment.JSON_parse
           (Samples.failing 1000) Samples.question Samples.world
           {| error_status := Some 429; error_message := Some "quota exceeded" |}
           ["Sao " +:+ QUOTA_NOTICE] eq_refl eq_refl eq_refl eq_refl H).
Defined.

End ClientProperties.

Section DatabaseServiceProperties.
Import JS Server DatabaseService.


End DatabaseServiceProperties.

(** ** The earlier server (the second server file): its context *)

Module Legacy.
Import JS.

(** [l.join(sep)] *)
Fixpoint join (sep : string) (l : list string) : string :=
  match l with
  | [] => EmptyString
  | [s] => s
  | s :: rest => s +:+ sep +:+ join sep rest
  end.

(** [f.content ? f.content.slice(0, 25000) : ''] *)
Definition contentSnippet (f : FileRecord) : string :=
  if truthy_string (content f) then slice0 25000 (content f) else EmptyString.

(** The block of one file: the template of the later server, around a
    shorter snippet. *)
Definition fileBlock (f : FileRecord) : string :=
  LF +:+ "--- ARQUIVO: " +:+ name f +:+ " ---" +:+ LF
  +:+ "METADADOS: Categoria: " +:+ category f
  +:+ ", Indicador: " +:+ caseName f
  +:+ ", Periodo: " +:+ period f
  +:+ ", Fonte: " +:+ source f
  +:+ ", Desc: " +:+ description f +:+ LF
  +:+ "CONTEUDO:" +:+ LF
  +:+ contentSnippet f +:+ " " +:+ LF
  +:+ "--- FIM ARQUIVO ---" +:+ LF.

(** [db.files.map(f => ...).join("\n")]: every file, in the order of the
    collection. *)
Definition context (files : list FileRecord) : string :=
  join LF (map fileBlock files).

End Legacy.

Section LegacyProperties.
Import JS Fields.

Lemma len_join (sep : string) (l : list string) :
  len (Legacy.join sep l)
  = total_length l + len sep * Z.max 0 (Z.of_nat (length l) - 1).
Proof.
  induction l as [|s l IH].
  { change (len (Legacy.join sep [])) with 0.
    cbn [total_length fold_right length]. lia. }
  destruct l as [|t l].
  - cbn [Legacy.join total_length fold_right length]. lia.
  - change (Legacy.join sep (s :: t :: l))
      with (s +:+ sep +:+ Legacy.join sep (t :: l)).
    rewrite !len_append, IH.
    cbn [total_length fold_right length].
    fold (total_length l). pose proof (len_nonneg sep). nia.
Qed.

Lemma len_legacy_snippet (f : FileRecord) :
  len (Legacy.contentSnippet f) = Z.min 25000 (len (content f)).
Proof.
  unfold Legacy.contentSnippet. destruct (content f) as [|c s] eqn:E.
  - done.
  - cbn [truthy_string]. unfold slice0, len. rewrite take_units_length.
    rewrite Nat2Z.inj_min, Z2Nat.id; [done | lia].
Qed.

Lemma len_legacy_block (f : FileRecord) :
  len (Legacy.fileBlock f)
  = 115 + shown_metadata f + Z.min 25000 (len (content f)).
Proof.
  unfold Legacy.fileBlock, shown_metadata.
  rewrite !len_append, len_legacy_snippet.
  change (len LF) with 1.
  change (len "--- ARQUIVO: ") with 13. change (len " ---") with 4.
  change (len "METADADOS: Categoria: ") with 22.
  change (len ", Indicador: ") with 13. change (len ", Periodo: ") with 11.
  change (len ", Fonte: ") with 9. change (len ", Desc: ") with 8.
  change (len "CONTEUDO:") with 9. change (len " ") with 1.
  change (len "--- FIM ARQUIVO ---") with 19. lia.
Qed.

Lemma total_legacy_blocks (files : list FileRecord) :
  Z.of_nat (length files) * 115
  <= total_length (map Legacy.fileBlock files).
Proof.
  induction files as [|f files IH]; [cbn; lia |].
  cbn [map total_length fold_right length].
  fold (total_length (map Legacy.fileBlock files)).
  rewrite len_legacy_block. unfold shown_metadata.
  pose proof (len_nonneg (name f)). pose proof (len_nonneg (category f)).
  pose proof (len_nonneg (caseName f)). pose proof (len_nonneg (period f)).
  pose proof (len_nonneg (source f)). pose proof (len_nonneg (description f)).
  pose proof (len_nonneg (content f)). lia.
Qed.

(** X18. The earlier server sends every document: its context is all the
    blocks, each with at most 25,000 code units of content, joined by line
    feeds, so its length is the sum of the block lengths and the
    separators and grows with the collection, at 116 code units a
    document at least; it passes 250,000 from 2,156 documents on, where the
    later server's context never reaches that. *)
Theorem earlier_context_has_no_budget (message : string) (files : list FileRecord) :
  len (Legacy.context files)
  = total_length (map Legacy.fileBlock files)
    + Z.max 0 (Z.of_nat (length files) - 1)
  /\ (forall f,
        len (Legacy.fileBlock f)
        = 115 + shown_metadata f + Z.min 25000 (len (content f)))
  /\ 116 * Z.of_nat (length files) - 1 <= len (Legacy.context files)
  /\ ((2156 <= length files)%nat ->
      len (Selector.selectedContext message files)
      < 250000 < len (Legacy.context files)).
Proof.
  assert (Hlen : len (Legacy.context files)
                 = total_length (map Legacy.fileBlock files)
                   + Z.max 0 (Z.of_nat (length files) - 1)).
  { unfold Legacy.context. rewrite len_join, length_map.
    change (len LF) with 1. lia. }
  pose proof (total_legacy_blocks files) as Hmin.
  refine (conj Hlen (conj len_legacy_block (conj _ _))); [lia |].
  intros Hmany. split; [| lia].
  destruct (packLoop_prefix Selector.MAX_CONTEXT_CHARS
              (Selector.sortedFiles message files) 0 EmptyString)
    as (k & _ & Hrun & Hunder & _).
  unfold Selector.selectedContext. rewrite Hrun. cbn [snd].
  change (EmptyString +:+ ?s) with s.
  destruct k as [|k]; [by rewrite take_0 |].
  specialize (Hunder (S k) ltac:(lia)).
  unfold Selector.MAX_CONTEXT_CHARS in Hunder. lia.
Qed.

End LegacyProperties.

(** ** [path.extname] on a name with an extension *)

Module ExtState.
Import Server.

(** The scan before its first code unit. *)
Definition start : ExtScan :=
  {| startDot := -1; startPart := 0; end_ := -1; matchedSlash := true;
     preDotState := 0 |}.

(** The scan inside the extension: the end is known, no dot yet. *)
Definition in_extension (e : Z) : ExtScan :=
  {| startDot := -1; startPart := 0; end_ := e; matchedSlash := false;
     preDotState := 0 |}.

(** The scan left of the last dot. *)
Definition past_dot (d e pd : Z) : ExtScan :=
  {| startDot := d; startPart := 0; end_ := e; matchedSlash := false;
     preDotState := pd |}.

(** The code units of a string. *)
Definition units (s : string) : list ascii := String.list_ascii_of_string s.

End ExtState.

Section ExtnameFacts.
Import JS Server ExtState.

Lemma units_append (a b : string) : units (a +:+ b) = units a ++ units b.
Proof.
  induction a as [|c a IH]; [done |].
  rewrite append_cons. unfold units in *.
  cbn [String.list_ascii_of_string]. by rewrite IH.
Qed.

Lemma units_without (s : string) (c : ascii) :
  includes s (String c EmptyString) = false -> Forall (fun x => x <> c) (units s).
Proof.
  induction s as [|x s IH]; [constructor |].
  rewrite includes_unit_cons. intros [Hx Hs]%orb_false_elim.
  constructor; [| by apply IH].
  intros ->. by rewrite Ascii.eqb_refl in Hx.
Qed.

Lemma units_length (s : string) : length (units s) = String.length s.
Proof.
  unfold units. induction s as [|c s IH]; [done |].
  cbn [String.list_ascii_of_string length String.length]. by rewrite IH.
Qed.

Lemma loop_first (c : ascii) (rest : list ascii) (i : Z) :
  c <> "/"%char -> c <> "."%char ->
  extname_loop (c :: rest) i start = extname_loop rest (i - 1) (in_extension (i + 1)).
Proof.
  intros Hs Hd. cbn [extname_loop].
  apply Ascii.eqb_neq in Hs. apply Ascii.eqb_neq in Hd. by rewrite Hs, Hd.
Qed.

Lemma loop_extension (l rest : list ascii) (i e : Z) :
  e <> -1 ->
  Forall (fun c => c <> "/"%char) l -> Forall (fun c => c <> "."%char) l ->
  extname_loop (l ++ rest) i (in_extension e)
  = extname_loop rest (i - Z.of_nat (length l)) (in_extension e).
Proof.
  intros He Hs Hd. revert i.
  induction l as [|c l IH]; intros i.
  - cbn. f_equal. lia.
  - apply Forall_cons in Hs as [Hc Hs]. apply Forall_cons in Hd as [Hc' Hd].
    apply Ascii.eqb_neq in Hc. apply Ascii.eqb_neq in Hc'.
    cbn [app extname_loop]. rewrite Hc, Hc'.
    apply Z.eqb_neq in He. cbn [end_ in_extension startDot]. rewrite He.
    cbn [startDot in_extension negb Z.eqb]. fold (in_extension e).
    rewrite (IH Hs Hd). f_equal. cbn [length]. lia.
Qed.

Lemma loop_dot (rest : list ascii) (i e : Z) :
  e <> -1 ->
  extname_loop ("."%char :: rest) i (in_extension e)
  = extname_loop rest (i - 1) (past_dot i e 0).
Proof.
  intros He. apply Z.eqb_neq in He. cbn [extname_loop].
  change (Ascii.eqb "." "/") with false. cbn [end_ in_extension]. rewrite He.
  change (Ascii.eqb "." ".") with true. done.
Qed.

Lemma loop_base (l : list ascii) (i d e pd : Z) :
  d <> -1 -> e <> -1 ->
  Forall (fun c => c <> "/"%char) l ->
  exists pd',
    extname_loop l i (past_dot d e pd) = past_dot d e pd'
    /\ (l = [] /\ pd' = pd \/ pd' = 1 \/ pd' = -1).
Proof.
  intros Hd He Hs. revert i pd.
  induction Hs as [|c l Hc _ IH]; intros i pd; [exists pd; by split; [|left] |].
  apply Ascii.eqb_neq in Hc. apply Z.eqb_neq in Hd. apply Z.eqb_neq in He.
  cbn [extname_loop]. rewrite Hc. cbn [end_ past_dot]. rewrite He.
  cbn [startDot preDotState past_dot]. rewrite Hd. cbn [negb].
  destruct (Ascii.eqb c ".").
  - destruct (Z.eqb_spec pd 1) as [-> | Hpd]; cbn [negb].
    + destruct (IH (i - 1) 1) as (pd' & Heq & Hpd').
      exists pd'. split; [exact Heq |]. right.
      destruct Hpd' as [[_ ->] | H]; tauto.
    + cbn [startDot startPart end_ matchedSlash]. fold (past_dot d e 1).
      destruct (IH (i - 1) 1) as (pd' & Heq & Hpd').
      exists pd'. split; [exact Heq |]. right.
      destruct Hpd' as [[_ ->] | H]; tauto.
  - cbn [startDot startPart end_ matchedSlash]. fold (past_dot d e (-1)).
    destruct (IH (i - 1) (-1)) as (pd' & Heq & Hpd').
    exists pd'. split; [exact Heq |]. right.
    destruct Hpd' as [[_ ->] | H]; tauto.
Qed.

Lemma loop_without_dot (l : list ascii) (i : Z) (st : ExtScan) :
  Forall (fun c => c <> "."%char) l -> startDot st = -1 ->
  startDot (extname_loop l i st) = -1.
Proof.
  intros Hl. revert i st.
  induction Hl as [|c l Hc _ IH]; intros i st Hst; [done |].
  apply Ascii.eqb_neq in Hc. cbn [extname_loop].
  destruct (Ascii.eqb c "/").
  - destruct (matchedSlash st); cbn [negb]; [by apply IH | done].
  - rewrite Hc. apply IH.
    destruct (end_ st =? -1); cbn [startDot]; rewrite Hst; by cbn.
Qed.

Lemma substring_all (s : string) :
  String.substring 0 (String.length s) s = s.
Proof. induction s as [|c s IH]; [done |]. cbn. by rewrite IH. Qed.

Lemma substring_after (a b : string) (m : nat) :
  String.substring (String.length a) m (a +:+ b) = String.substring 0 m b.
Proof. induction a as [|c a IH]; [done |]. rewrite append_cons. apply IH. Qed.

Lemma extname_with_extension (base ext : string) :
  base <> EmptyString -> ext <> EmptyString ->
  includes base "/" = false -> includes ext "/" = false ->
  includes ext "." = false ->
  extname (base +:+ "." +:+ ext) = "." +:+ ext.
Proof.
  intros Hbase Hext Hbs Hes Hed. unfold extname.
  fold (units (base +:+ "." +:+ ext)). fold start.
  rewrite units_append. change (units ("." +:+ ext)) with ("."%char :: units ext).
  rewrite rev_app_distr. cbn [rev]. rewrite <- app_assoc. cbn [app].
  assert (Hlen : len (base +:+ "." +:+ ext) = len base + 1 + len ext).
  { rewrite !len_append. change (len ".") with 1. lia. }
  assert (Hb1 : 1 <= len base) by (destruct base; [done | unfold len; cbn; lia]).
  assert (He1 : 1 <= len ext) by (destruct ext; [done | unfold len; cbn; lia]).
  pose proof (units_without ext "/" Hes) as Hs.
  pose proof (units_without ext "." Hed) as Hd.
  apply Forall_rev in Hs. apply Forall_rev in Hd.
  assert (Hn : Z.of_nat (length (rev (units ext))) = len ext)
    by (by rewrite length_rev, units_length).
  pose proof (units_without base "/" Hbs) as Hb. apply Forall_rev in Hb.
  assert (Hnb : rev (units base) <> []).
  { intros Hnil. apply (f_equal (@length ascii)) in Hnil.
    rewrite length_rev, units_length in Hnil. unfold len in Hb1.
    cbn [length] in Hnil. lia. }
  remember (len (base +:+ "." +:+ ext)) as L eqn:HL.
  destruct (rev (units ext)) as [|c tl] eqn:E; [cbn [length] in Hn; lia |].
  apply Forall_cons in Hs as [Hc Hs]. apply Forall_cons in Hd as [Hc' Hd].
  cbn [length] in Hn. cbn [app]. rewrite (loop_first c _ _ Hc Hc').
  rewrite (loop_extension tl); [| lia | done | done].
  rewrite loop_dot by lia.
  replace (L - 1 - 1 - Z.of_nat (length tl)) with (len base) by lia.
  replace (L - 1 + 1) with L by lia.
  destruct (loop_base (rev (units base)) (len base - 1) (len base) L 0)
    as (pd & Hrun & Hpd); [lia | lia | done |].
  rewrite Hrun. cbn [startDot end_ preDotState startPart past_dot].
  assert (Hpd' : pd = 1 \/ pd = -1) by (destruct Hpd as [[Hnil _] | H]; done).
  destruct (Z.eqb_spec (len base) (-1)); [lia |].
  destruct (Z.eqb_spec L (-1)); [lia |].
  destruct (Z.eqb_spec pd 0); [lia |].
  destruct (Z.eqb_spec (len base) (L - 1)); [lia |].
  rewrite andb_false_r. cbn [orb andb].
  unfold slice.
  replace (Z.to_nat (len base)) with (String.length base) by (unfold len; lia).
  replace (Z.to_nat (L - len base)) with (String.length ("." +:+ ext)).
  2:{ change (String.length ("." +:+ ext)) with (S (String.length ext)).
      unfold len in *. lia. }
  by rewrite substring_after, substring_all.
Qed.

Lemma extname_without_dot (name_ : string) :
  includes name_ "." = false -> extname name_ = EmptyString.
Proof.
  intros Hd. unfold extname.
  pose proof (units_without name_ "." Hd) as Hl. apply Forall_rev in Hl.
  fold (units name_). fold start.
  assert (Hst : startDot start = -1) by done.
  by rewrite (loop_without_dot _ (len name_ - 1) start Hl Hst).
Qed.

Lemma extname_dotfile (ext : string) :
  includes ext "/" = false -> includes ext "." = false ->
  extname ("." +:+ ext) = EmptyString.
Proof.
  intros Hes Hed. unfold extname.
  fold (units ("." +:+ ext)). fold start.
  change (units ("." +:+ ext)) with ("."%char :: units ext).
  cbn [rev].
  pose proof (units_without ext "/" Hes) as Hs.
  pose proof (units_without ext "." Hed) as Hd.
  apply Forall_rev in Hs. apply Forall_rev in Hd.
  assert (Hn : Z.of_nat (length (rev (units ext))) = len ext)
    by (by rewrite length_rev, units_length).
  assert (Hlen : len ("." +:+ ext) = 1 + len ext).
  { rewrite len_append. by change (len ".") with 1. }
  rewrite Hlen. pose proof (len_nonneg ext) as Hnn.
  destruct (rev (units ext)) as [|c tl] eqn:E.
  - cbn [length] in Hn. replace (len ext) with 0 by lia. done.
  - apply Forall_cons in Hs as [Hc Hs]. apply Forall_cons in Hd as [Hc' Hd].
    cbn [length] in Hn. rewrite <- app_comm_cons.
    rewrite (loop_first c _ _ Hc Hc').
    rewrite (loop_extension tl); [| lia | done | done].
    rewrite loop_dot by lia. cbn [extname_loop past_dot startDot end_ preDotState].
    by rewrite orb_true_r.
Qed.

End ExtnameFacts.

Section ExtnameProperties.
Import JS Server.

(** X19. [path.extname] on the names an upload carries, and what the
    upload makes of it.  For a name [base.ext] with a nonempty base and a
    nonempty extension, no slash in either and no dot in the extension,
    [extname] is the dot and the extension as written: the record's
    [type] is the extension as written, and the reader is chosen by the
    lowercased extension.  A name without a dot, and a name that starts
    with its only dot (".csv"), have no extension: the record's [type]
    and [content] are empty and no reader is called. *)
Theorem extension_decides_type_and_reader
  (env : UploadEnv) (f : Upload) (metadata : Metadata) :
  let record := newFile env f metadata in
  (forall base ext,
     originalname f = base +:+ "." +:+ ext ->
     base <> EmptyString -> ext <> EmptyString ->
     includes base "/" = false -> includes ext "/" = false ->
     includes ext "." = false ->
     extname (originalname f) = "." +:+ ext
     /\ type record = ext
     /\ content record
        = caught (extractText_try (readers env) (upload_path f)
                    (originalname f) ("." +:+ toLowerCase ext)))
  /\ (includes (originalname f) "." = false ->
      type record = EmptyString /\ content record = EmptyString)
  /\ (forall ext,
        originalname f = "." +:+ ext ->
        includes ext "/" = false -> includes ext "." = false ->
        type record = EmptyString /\ content record = EmptyString).
Proof.
  cbn zeta. unfold newFile, extractText. cbn [type content].
  split; [| split].
  - intros base ext -> Hbase Hext Hbs Hes Hed.
    rewrite (extname_with_extension base ext Hbase Hext Hbs Hes Hed).
    rewrite toLowerCase_append. done.
  - intros Hd. by rewrite (extname_without_dot _ Hd).
  - intros ext -> Hes Hed. by rewrite (extname_dotfile ext Hes Hed).
Qed.

(** An upload named [escolas.CSV] is stored with the type [CSV] and read
    as text. *)
Lemma sample_upload_type_and_reader :
  type (newFile Samples.upload_env Samples.csv_upload Samples.some_metadata)
  = "CSV"
  /\ content (newFile Samples.upload_env Samples.csv_upload
                Samples.some_metadata)
     = "bairro,total".
Proof.
  destruct (extension_decides_type_and_reader Samples.upload_env
              Samples.csv_upload Samples.some_metadata) as [Hext _].
  assert (Hname : originalname Samples.csv_upload = "escolas" +:+ "." +:+ "CSV")
    by (vm_compute; reflexivity).
  assert (Hb : includes "escolas" "/" = false) by (vm_compute; reflexivity).
  assert (Hs : includes "CSV" "/" = false) by (vm_compute; reflexivity).
  assert (Hd : includes "CSV" "." = false) by (vm_compute; reflexivity).
  assert (Hbase : "escolas" <> EmptyString) by discriminate.
  assert (Hx : "CSV" <> EmptyString) by discriminate.
  destruct (Hext "escolas" "CSV" Hname Hbase Hx Hb Hs Hd) as (_ & Ht & Hc).
  split; [exact Ht |]. rewrite Hc. vm_compute. reflexivity.
Defined.

End ExtnameProperties.
